(** * CktGraph: the circuit graph of one hierarchy level (MAGICAL flow)

    A shallow embedding of [flow/cpp/magical_flow/src/db/CktGraph.h]:
    the floorplan side data [FloorplanData], the graph [CktGraph] with its
    three entity vectors, the two classification index vectors, and the
    single-slot [backup]/[restore] checkpoint.

    Vectors are lists, [std::map<std::string, IntType>] is a [gmap], and a
    member function that mutates the object is a function from the object
    before the call to the object after it (paired with the returned value
    when there is one).  A call that can stop the program, through an
    assertion or through the range check of [std::vector::at], returns an
    [Outcome]. *)

From stdpp Require Import base strings list gmap sorting.
From Stdlib Require Import ZArith.

#[local] Open Scope Z_scope.

(** ** Scalar types

    The typedefs [LocType], [IntType] and [IndexType] come from a global
    header that is not among the sources.  Coordinates and integers are
    signed, indices are unsigned; their machine ranges are not modelled. *)

Definition LocType : Type := Z.
Definition IntType : Type := Z.
Definition IndexType : Type := N.

(** Modelled from the spec: [Box<T>] (its header is not among the sources)
    is an axis-aligned box kept as its four coordinates, built by
    [Box<T>(xLo, yLo, xHi, yHi)] and read by [xLo()]. *)
Record Box (T : Type) : Type := mkBox { xLo : T; yLo : T; xHi : T; yHi : T }.
Arguments mkBox {T} _ _ _ _.
Arguments xLo {T} _.
Arguments yLo {T} _.
Arguments xHi {T} _.
Arguments yHi {T} _.

(** ** Outcomes of a call *)

Inductive Fault : Type :=
  | AssertionFailure   (* a failed [Assert] / [AssertMsg] *)
  | OutOfRange.        (* [std::out_of_range] thrown by [std::vector::at] *)

Inductive Outcome (A : Type) : Type :=
  | Done (a : A)
  | Abort (f : Fault).
Arguments Done {A} a.
Arguments Abort {A} f.

#[global] Instance Outcome_ret : MRet Outcome := fun A a => Done a.
#[global] Instance Outcome_bind : MBind Outcome := fun A B k m =>
  match m with
  | Done a => k a
  | Abort f => Abort f
  end.

(** Modelled from the spec: the macro [Assert] (its header is not among the
    sources) reports a violated condition as a fatal assertion. *)
Definition Assert (cond : bool) : Outcome unit :=
  if cond then Done tt else Abort AssertionFailure.

(** Modelled from the spec: [AssertMsg(cond, format, ...)] is [Assert] with a
    diagnostic that names the offending sizes. *)
Definition AssertMsg (cond : bool) (msg : string) : Outcome unit :=
  if cond then Done tt else Abort AssertionFailure.

(** [std::vector<T>::at] *)
Definition at_ {A : Type} (v : list A) (idx : IndexType) : Outcome A :=
  match v !! N.to_nat idx with
  | Some a => Done a
  | None => Abort OutOfRange
  end.

(** [std::vector<T>::size] *)
Definition size_ {A : Type} (v : list A) : IndexType := N.of_nat (length v).

(** ** Collaborators

    [CktGraph.h] uses the classes of [GraphComponents.h], [Layout.h] and
    [TechDB.h], the type [GdsData], the enumeration [ImplType] and two
    constants; none of these headers is among the sources.  They are taken
    as parameters: a type for each class together with the value its default
    constructor builds, the one accessor and the one mutator the graph calls
    on them, and the constants. *)
Class Collaborators : Type := {
  CktNode : Type;
  CktNode_new : CktNode;                      (* [CktNode()] *)
  Pin : Type;
  Pin_new : Pin;                              (* [Pin()] *)
  Net : Type;
  Net_new : Net;                              (* [Net()] *)
  Net_flipVert : LocType -> Net -> Net;       (* [Net::flipVert(axis)] *)
  Layout : Type;
  Layout_new : Layout;
  Layout_boundary : Layout -> Box LocType;    (* [Layout::boundary()] *)
  GdsData : Type;
  GdsData_new : GdsData;
  TechDB : Type;
  TechDB_new : TechDB;
  ImplType : Type;
  UNSET : ImplType;                           (* [ImplType::UNSET] *)
  Box_new : Box LocType;                      (* [Box<LocType>()] *)
  LOC_TYPE_MAX : LocType;
  INDEX_TYPE_MAX : IndexType;
}.

(** ** FloorplanData *)

Record FloorplanData : Type := mkFloorplanData {
  _boundary : Box LocType;
  _isBoundarySet : bool;
  _netNameToAssignMap : gmap string IntType;
  _isNetAssignmentSet : bool;
}.

Definition setBoundary (xLo yLo xHi yHi : LocType) (fp : FloorplanData)
  : FloorplanData :=
  {| _boundary := mkBox xLo yLo xHi yHi;
     _isBoundarySet := true;
     _netNameToAssignMap := _netNameToAssignMap fp;
     _isNetAssignmentSet := _isNetAssignmentSet fp |}.

Definition clearBoundary (fp : FloorplanData) : FloorplanData :=
  {| _boundary := _boundary fp;
     _isBoundarySet := false;
     _netNameToAssignMap := _netNameToAssignMap fp;
     _isNetAssignmentSet := _isNetAssignmentSet fp |}.

Definition isBoundarySet (fp : FloorplanData) : bool := _isBoundarySet fp.

Definition setNetAssignment (netName : string) (assignStatus : IntType)
  (fp : FloorplanData) : FloorplanData :=
  {| _boundary := _boundary fp;
     _isBoundarySet := _isBoundarySet fp;
     _netNameToAssignMap := <[netName := assignStatus]> (_netNameToAssignMap fp);
     _isNetAssignmentSet := true |}.

Definition clearNetAssignment (fp : FloorplanData) : FloorplanData :=
  {| _boundary := _boundary fp;
     _isBoundarySet := _isBoundarySet fp;
     _netNameToAssignMap := _netNameToAssignMap fp;
     _isNetAssignmentSet := false |}.

Definition isNetAssignmentSet (fp : FloorplanData) : bool :=
  _isNetAssignmentSet fp.

Definition netAssignment (name : string) (fp : FloorplanData) : IntType :=
  match _netNameToAssignMap fp !! name with
  | None => -1
  | Some status => status
  end.

(** The members of a default-constructed [FloorplanData]. *)
Definition FloorplanData_new {col : Collaborators} : FloorplanData :=
  {| _boundary := Box_new;
     _isBoundarySet := false;
     _netNameToAssignMap := ∅;
     _isNetAssignmentSet := false |}.

(** ** CktGraph *)

Section Graph.
Context {col : Collaborators}.

(** [struct CktGraphBackup]; its members carry the prefix [bk_] to keep
    them apart from the getters of the graph that bear the same names. *)
Record CktGraphBackup : Type := mkCktGraphBackup {
  bk_nodeArray : list CktNode;
  bk_pinArray : list Pin;
  bk_netArray : list Net;
  bk_psubIdxArray : list IndexType;
  bk_nwellIdxArray : list IndexType;
  bk_layout : Layout;
  bk_isImplemented : bool;
  bk_flipVertFlag : bool;
  bk_gdsData : GdsData;
}.

Record CktGraph : Type := mkCktGraph {
  _backup : CktGraphBackup;
  _techDB : TechDB;
  _nodeArray : list CktNode;
  _pinArray : list Pin;
  _netArray : list Net;
  _psubIdxArray : list IndexType;
  _nwellIdxArray : list IndexType;
  _name : string;
  _refName : string;
  _layout : Layout;
  _implType : ImplType;
  _implIdx : IndexType;
  _isImplemented : bool;
  _flipVertFlag : bool;
  _fpData : FloorplanData;
  _gdsData : GdsData;
}.

(** The checkpoint slot of a graph that has just been constructed.  Its
    vectors, layout and geometry data are default-constructed.  The struct
    gives its two flags no initialiser, so the constructor leaves them as
    the storage of the object held them: these two values are arguments. *)
Definition CktGraphBackup_new (isImplemented flipVertFlag : bool)
  : CktGraphBackup :=
  {| bk_nodeArray := [];
     bk_pinArray := [];
     bk_netArray := [];
     bk_psubIdxArray := [];
     bk_nwellIdxArray := [];
     bk_layout := Layout_new;
     bk_isImplemented := isImplemented;
     bk_flipVertFlag := flipVertFlag;
     bk_gdsData := GdsData_new |}.

(** The graph after the defaulted constructor has run, member initialisers
    applied, over storage that held the two given values where the flags
    of the slot sit (a default-initialised [CktGraph g;]). *)
Definition CktGraph_default_init (isImplemented flipVertFlag : bool)
  : CktGraph :=
  {| _backup := CktGraphBackup_new isImplemented flipVertFlag;
     _techDB := TechDB_new;
     _nodeArray := [];
     _pinArray := [];
     _netArray := [];
     _psubIdxArray := [];
     _nwellIdxArray := [];
     _name := "";
     _refName := "";
     _layout := Layout_new;
     _implType := UNSET;
     _implIdx := INDEX_TYPE_MAX;
     _isImplemented := false;
     _flipVertFlag := false;
     _fpData := FloorplanData_new;
     _gdsData := GdsData_new |}.

(** The graph built by the expression [CktGraph()]: the constructor is
    defaulted on its first declaration, so the object is zero-initialised
    before the constructor runs and the two flags of the slot are false. *)
Definition CktGraph_new : CktGraph := CktGraph_default_init false false.

(** *** Assignment to one member *)

Definition with_backup (v : CktGraphBackup) (g : CktGraph) : CktGraph :=
  mkCktGraph v (_techDB g) (_nodeArray g) (_pinArray g) (_netArray g)
    (_psubIdxArray g) (_nwellIdxArray g) (_name g) (_refName g) (_layout g)
    (_implType g) (_implIdx g) (_isImplemented g) (_flipVertFlag g)
    (_fpData g) (_gdsData g).

Definition with_techDB (v : TechDB) (g : CktGraph) : CktGraph :=
  mkCktGraph (_backup g) v (_nodeArray g) (_pinArray g) (_netArray g)
    (_psubIdxArray g) (_nwellIdxArray g) (_name g) (_refName g) (_layout g)
    (_implType g) (_implIdx g) (_isImplemented g) (_flipVertFlag g)
    (_fpData g) (_gdsData g).

Definition with_nodeArray (v : list CktNode) (g : CktGraph) : CktGraph :=
  mkCktGraph (_backup g) (_techDB g) v (_pinArray g) (_netArray g)
    (_psubIdxArray g) (_nwellIdxArray g) (_name g) (_refName g) (_layout g)
    (_implType g) (_implIdx g) (_isImplemented g) (_flipVertFlag g)
    (_fpData g) (_gdsData g).

Definition with_pinArray (v : list Pin) (g : CktGraph) : CktGraph :=
  mkCktGraph (_backup g) (_techDB g) (_nodeArray g) v (_netArray g)
    (_psubIdxArray g) (_nwellIdxArray g) (_name g) (_refName g) (_layout g)
    (_implType g) (_implIdx g) (_isImplemented g) (_flipVertFlag g)
    (_fpData g) (_gdsData g).

Definition with_netArray (v : list Net) (g : CktGraph) : CktGraph :=
  mkCktGraph (_backup g) (_techDB g) (_nodeArray g) (_pinArray g) v
    (_psubIdxArray g) (_nwellIdxArray g) (_name g) (_refName g) (_layout g)
    (_implType g) (_implIdx g) (_isImplemented g) (_flipVertFlag g)
    (_fpData g) (_gdsData g).

Definition with_psubIdxArray (v : list IndexType) (g : CktGraph) : CktGraph :=
  mkCktGraph (_backup g) (_techDB g) (_nodeArray g) (_pinArray g)
    (_netArray g) v (_nwellIdxArray g) (_name g) (_refName g) (_layout g)
    (_implType g) (_implIdx g) (_isImplemented g) (_flipVertFlag g)
    (_fpData g) (_gdsData g).

Definition with_nwellIdxArray (v : list IndexType) (g : CktGraph) : CktGraph :=
  mkCktGraph (_backup g) (_techDB g) (_nodeArray g) (_pinArray g)
    (_netArray g) (_psubIdxArray g) v (_name g) (_refName g) (_layout g)
    (_implType g) (_implIdx g) (_isImplemented g) (_flipVertFlag g)
    (_fpData g) (_gdsData g).

Definition with_name (v : string) (g : CktGraph) : CktGraph :=
  mkCktGraph (_backup g) (_techDB g) (_nodeArray g) (_pinArray g)
    (_netArray g) (_psubIdxArray g) (_nwellIdxArray g) v (_refName g)
    (_layout g) (_implType g) (_implIdx g) (_isImplemented g)
    (_flipVertFlag g) (_fpData g) (_gdsData g).

Definition with_refName (v : string) (g : CktGraph) : CktGraph :=
  mkCktGraph (_backup g) (_techDB g) (_nodeArray g) (_pinArray g)
    (_netArray g) (_psubIdxArray g) (_nwellIdxArray g) (_name g) v
    (_layout g) (_implType g) (_implIdx g) (_isImplemented g)
    (_flipVertFlag g) (_fpData g) (_gdsData g).

Definition with_layout (v : Layout) (g : CktGraph) : CktGraph :=
  mkCktGraph (_backup g) (_techDB g) (_nodeArray g) (_pinArray g)
    (_netArray g) (_psubIdxArray g) (_nwellIdxArray g) (_name g)
    (_refName g) v (_implType g) (_implIdx g) (_isImplemented g)
    (_flipVertFlag g) (_fpData g) (_gdsData g).

Definition with_implType (v : ImplType) (g : CktGraph) : CktGraph :=
  mkCktGraph (_backup g) (_techDB g) (_nodeArray g) (_pinArray g)
    (_netArray g) (_psubIdxArray g) (_nwellIdxArray g) (_name g)
    (_refName g) (_layout g) v (_implIdx g) (_isImplemented g)
    (_flipVertFlag g) (_fpData g) (_gdsData g).

Definition with_implIdx (v : IndexType) (g : CktGraph) : CktGraph :=
  mkCktGraph (_backup g) (_techDB g) (_nodeArray g) (_pinArray g)
    (_netArray g) (_psubIdxArray g) (_nwellIdxArray g) (_name g)
    (_refName g) (_layout g) (_implType g) v (_isImplemented g)
    (_flipVertFlag g) (_fpData g) (_gdsData g).

Definition with_isImplemented (v : bool) (g : CktGraph) : CktGraph :=
  mkCktGraph (_backup g) (_techDB g) (_nodeArray g) (_pinArray g)
    (_netArray g) (_psubIdxArray g) (_nwellIdxArray g) (_name g)
    (_refName g) (_layout g) (_implType g) (_implIdx g) v
    (_flipVertFlag g) (_fpData g) (_gdsData g).

Definition with_flipVertFlag (v : bool) (g : CktGraph) : CktGraph :=
  mkCktGraph (_backup g) (_techDB g) (_nodeArray g) (_pinArray g)
    (_netArray g) (_psubIdxArray g) (_nwellIdxArray g) (_name g)
    (_refName g) (_layout g) (_implType g) (_implIdx g) (_isImplemented g)
    v (_fpData g) (_gdsData g).

Definition with_fpData (v : FloorplanData) (g : CktGraph) : CktGraph :=
  mkCktGraph (_backup g) (_techDB g) (_nodeArray g) (_pinArray g)
    (_netArray g) (_psubIdxArray g) (_nwellIdxArray g) (_name g)
    (_refName g) (_layout g) (_implType g) (_implIdx g) (_isImplemented g)
    (_flipVertFlag g) v (_gdsData g).

Definition with_gdsData (v : GdsData) (g : CktGraph) : CktGraph :=
  mkCktGraph (_backup g) (_techDB g) (_nodeArray g) (_pinArray g)
    (_netArray g) (_psubIdxArray g) (_nwellIdxArray g) (_name g)
    (_refName g) (_layout g) (_implType g) (_implIdx g) (_isImplemented g)
    (_flipVertFlag g) (_fpData g) v.

(** *** Getters and setters *)

Definition setTechDB (techDB : TechDB) (g : CktGraph) : CktGraph :=
  with_techDB techDB g.

Definition numNodes (g : CktGraph) : IndexType := size_ (_nodeArray g).
Definition numPins (g : CktGraph) : IndexType := size_ (_pinArray g).
Definition numNets (g : CktGraph) : IndexType := size_ (_netArray g).
Definition numPsubs (g : CktGraph) : IndexType := size_ (_psubIdxArray g).
Definition numNwells (g : CktGraph) : IndexType := size_ (_nwellIdxArray g).

Definition node (nodeIdx : IndexType) (g : CktGraph) : Outcome CktNode :=
  at_ (_nodeArray g) nodeIdx.
Definition pin (pinIdx : IndexType) (g : CktGraph) : Outcome Pin :=
  at_ (_pinArray g) pinIdx.
Definition net (netIdx : IndexType) (g : CktGraph) : Outcome Net :=
  at_ (_netArray g) netIdx.

(** [_netArray.at(_psubIdxArray.at(psubIdx))] *)
Definition psub (psubIdx : IndexType) (g : CktGraph) : Outcome Net :=
  netIdx ← at_ (_psubIdxArray g) psubIdx; at_ (_netArray g) netIdx.
Definition nwell (nwellIdx : IndexType) (g : CktGraph) : Outcome Net :=
  netIdx ← at_ (_nwellIdxArray g) nwellIdx; at_ (_netArray g) netIdx.

Definition setName (name : string) (g : CktGraph) : CktGraph :=
  with_refName name (with_name name g).
Definition setRefName (refName : string) (g : CktGraph) : CktGraph :=
  with_refName refName g.
Definition implType (g : CktGraph) : ImplType := _implType g.
Definition setImplType (t : ImplType) (g : CktGraph) : CktGraph :=
  with_implType t g.
Definition implIdx (g : CktGraph) : IndexType := _implIdx g.
Definition setImplIdx (i : IndexType) (g : CktGraph) : CktGraph :=
  with_implIdx i g.
Definition flipVertFlag (g : CktGraph) : bool := _flipVertFlag g.
Definition isImpl (g : CktGraph) : bool := _isImplemented g.
Definition setIsImpl (impl : bool) (g : CktGraph) : CktGraph :=
  with_isImplemented impl g.

(** *** Resizing

    [AssertMsg(n <= v.size(), ...); v.resize(n);] where [resize] keeps the
    first [n] elements and pads with value-initialised ones. *)

Definition resizeNodeArray (numNodes : IndexType) (g : CktGraph)
  : Outcome CktGraph :=
  _ ← AssertMsg (numNodes <=? size_ (_nodeArray g))%N
        "Try resize nodes from size %u to %u";
  mret (with_nodeArray (resize (N.to_nat numNodes) CktNode_new (_nodeArray g)) g).

Definition resizePinArray (numPins : IndexType) (g : CktGraph)
  : Outcome CktGraph :=
  _ ← AssertMsg (numPins <=? size_ (_pinArray g))%N
        "Try resize pins from size %u to %u";
  mret (with_pinArray (resize (N.to_nat numPins) Pin_new (_pinArray g)) g).

Definition resizeNetArray (numNets : IndexType) (g : CktGraph)
  : Outcome CktGraph :=
  _ ← AssertMsg (numNets <=? size_ (_netArray g))%N
        "Try resize nets from size %u to %u";
  mret (with_netArray (resize (N.to_nat numNets) Net_new (_netArray g)) g).

(** *** Vector operations

    [v.emplace_back(T()); return v.size() - 1;] *)

Definition allocateNode (g : CktGraph) : CktGraph * IndexType :=
  let g' := with_nodeArray (_nodeArray g ++ [CktNode_new]) g in
  (g', (size_ (_nodeArray g') - 1)%N).

Definition allocatePin (g : CktGraph) : CktGraph * IndexType :=
  let g' := with_pinArray (_pinArray g ++ [Pin_new]) g in
  (g', (size_ (_pinArray g') - 1)%N).

Definition allocateNet (g : CktGraph) : CktGraph * IndexType :=
  let g' := with_netArray (_netArray g ++ [Net_new]) g in
  (g', (size_ (_netArray g') - 1)%N).

Definition allocatePsub (g : CktGraph) : CktGraph * IndexType :=
  let '(g1, netIdx) := allocateNet g in
  (with_psubIdxArray (_psubIdxArray g1 ++ [netIdx]) g1, netIdx).

Definition addPsubIdx (netIdx : IndexType) (g : CktGraph) : CktGraph :=
  with_psubIdxArray (_psubIdxArray g ++ [netIdx]) g.

Definition allocateNwell (g : CktGraph) : CktGraph * IndexType :=
  let '(g1, netIdx) := allocateNet g in
  (with_nwellIdxArray (_nwellIdxArray g1 ++ [netIdx]) g1, netIdx).

Definition addNwellIdx (netIdx : IndexType) (g : CktGraph) : CktGraph :=
  with_nwellIdxArray (_nwellIdxArray g ++ [netIdx]) g.

(** *** Integration *)

Definition flipVert (axis : LocType) (g : CktGraph) : CktGraph :=
  let g1 := with_flipVertFlag (negb (_flipVertFlag g)) g in
  with_netArray (Net_flipVert axis <$> _netArray g1) g1.

(** *** Checkpoint *)

Definition backup (g : CktGraph) : CktGraph :=
  with_backup
    {| bk_nodeArray := _nodeArray g;
       bk_pinArray := _pinArray g;
       bk_netArray := _netArray g;
       bk_psubIdxArray := _psubIdxArray g;
       bk_nwellIdxArray := _nwellIdxArray g;
       bk_layout := _layout g;
       bk_isImplemented := _isImplemented g;
       bk_flipVertFlag := _flipVertFlag g;
       bk_gdsData := _gdsData g |} g.

(** The nine [std::swap] calls of [restore]: each live member takes the
    value of the slot and the slot takes the value of the live member. *)
Definition restore_swaps (g : CktGraph) : CktGraph :=
  {| _backup :=
       {| bk_nodeArray := _nodeArray g;
          bk_pinArray := _pinArray g;
          bk_netArray := _netArray g;
          bk_psubIdxArray := _psubIdxArray g;
          bk_nwellIdxArray := _nwellIdxArray g;
          bk_layout := _layout g;
          bk_isImplemented := _isImplemented g;
          bk_flipVertFlag := _flipVertFlag g;
          bk_gdsData := _gdsData g |};
     _techDB := _techDB g;
     _nodeArray := bk_nodeArray (_backup g);
     _pinArray := bk_pinArray (_backup g);
     _netArray := bk_netArray (_backup g);
     _psubIdxArray := bk_psubIdxArray (_backup g);
     _nwellIdxArray := bk_nwellIdxArray (_backup g);
     _name := _name g;
     _refName := _refName g;
     _layout := bk_layout (_backup g);
     _implType := _implType g;
     _implIdx := _implIdx g;
     _isImplemented := bk_isImplemented (_backup g);
     _flipVertFlag := bk_flipVertFlag (_backup g);
     _fpData := _fpData g;
     _gdsData := bk_gdsData (_backup g) |}.

Definition restore (g : CktGraph) : Outcome CktGraph :=
  let g' := restore_swaps g in
  _ ← Assert (xLo (Layout_boundary (_layout g')) =? LOC_TYPE_MAX);
  mret g'.

(** *** Call sequences

    A caller changes the graph through the member functions above and
    through the mutable references handed out by [nodeArray()],
    [pinArray()], [netArray()], [layout()], [gdsData()] and [fpData()]
    ([node(i)], [pin(i)] and [net(i)] reach into the same vectors, and
    [parseGDS] fills [_layout]).  A [Mutation] is one such change; it is
    every public way to change a graph apart from [backup] and
    [restore]. *)

Inductive Mutation : Type :=
  | CallSetTechDB (techDB : TechDB)
  | CallResizeNodeArray (numNodes : IndexType)
  | CallResizePinArray (numPins : IndexType)
  | CallResizeNetArray (numNets : IndexType)
  | CallSetName (name : string)
  | CallSetRefName (refName : string)
  | CallSetImplType (t : ImplType)
  | CallSetImplIdx (i : IndexType)
  | CallSetIsImpl (impl : bool)
  | CallAllocateNode
  | CallAllocatePin
  | CallAllocateNet
  | CallAllocatePsub
  | CallAddPsubIdx (netIdx : IndexType)
  | CallAllocateNwell
  | CallAddNwellIdx (netIdx : IndexType)
  | CallFlipVert (axis : LocType)
  | ThroughNodeArray (f : list CktNode -> list CktNode)
  | ThroughPinArray (f : list Pin -> list Pin)
  | ThroughNetArray (f : list Net -> list Net)
  | ThroughLayout (f : Layout -> Layout)
  | ThroughGdsData (f : GdsData -> GdsData)
  | ThroughFpData (f : FloorplanData -> FloorplanData).

Definition mutate (m : Mutation) (g : CktGraph) : Outcome CktGraph :=
  match m with
  | CallSetTechDB techDB => Done (setTechDB techDB g)
  | CallResizeNodeArray n => resizeNodeArray n g
  | CallResizePinArray n => resizePinArray n g
  | CallResizeNetArray n => resizeNetArray n g
  | CallSetName name => Done (setName name g)
  | CallSetRefName refName => Done (setRefName refName g)
  | CallSetImplType t => Done (setImplType t g)
  | CallSetImplIdx i => Done (setImplIdx i g)
  | CallSetIsImpl impl => Done (setIsImpl impl g)
  | CallAllocateNode => Done (allocateNode g).1
  | CallAllocatePin => Done (allocatePin g).1
  | CallAllocateNet => Done (allocateNet g).1
  | CallAllocatePsub => Done (allocatePsub g).1
  | CallAddPsubIdx netIdx => Done (addPsubIdx netIdx g)
  | CallAllocateNwell => Done (allocateNwell g).1
  | CallAddNwellIdx netIdx => Done (addNwellIdx netIdx g)
  | CallFlipVert axis => Done (flipVert axis g)
  | ThroughNodeArray f => Done (with_nodeArray (f (_nodeArray g)) g)
  | ThroughPinArray f => Done (with_pinArray (f (_pinArray g)) g)
  | ThroughNetArray f => Done (with_netArray (f (_netArray g)) g)
  | ThroughLayout f => Done (with_layout (f (_layout g)) g)
  | ThroughGdsData f => Done (with_gdsData (f (_gdsData g)) g)
  | ThroughFpData f => Done (with_fpData (f (_fpData g)) g)
  end.

Fixpoint mutate_all (ms : list Mutation) (g : CktGraph) : Outcome CktGraph :=
  match ms with
  | [] => Done g
  | m :: ms' => g' ← mutate m g; mutate_all ms' g'
  end.

(** The three plain allocators, as calls that return an index. *)
Inductive Entity : Type := ANode | APin | ANet.

#[global] Instance Entity_eq_dec : EqDecision Entity.
Proof. solve_decision. Defined.

Definition allocate (e : Entity) (g : CktGraph) : CktGraph * IndexType :=
  match e with
  | ANode => allocateNode g
  | APin => allocatePin g
  | ANet => allocateNet g
  end.

Definition numEntities (e : Entity) (g : CktGraph) : IndexType :=
  match e with
  | ANode => numNodes g
  | APin => numPins g
  | ANet => numNets g
  end.

(** Runs the calls in order; returns the final graph and, call by call,
    which allocator ran and the index it returned. *)
Fixpoint allocate_all (es : list Entity) (g : CktGraph)
  : CktGraph * list (Entity * IndexType) :=
  match es with
  | [] => (g, [])
  | e :: es' =>
      let '(g1, idx) := allocate e g in
      let '(g2, log) := allocate_all es' g1 in
      (g2, (e, idx) :: log)
  end.

(** The indices one allocator returned, in call order. *)
Definition returned (e : Entity) (log : list (Entity * IndexType))
  : list IndexType :=
  snd <$> filter (fun c => c.1 = e) log.

(** The scenario of the spec: two nodes, three pins and one net are
    allocated, the graph is checkpointed, one more net is allocated and
    the checkpoint is restored.  Returns the indices the seven allocator
    calls returned and the graph after [restore]. *)
Definition checkpoint_scenario : Outcome (list IndexType * CktGraph) :=
  let '(g1, n0) := allocateNode CktGraph_new in
  let '(g2, n1) := allocateNode g1 in
  let '(g3, p0) := allocatePin g2 in
  let '(g4, p1) := allocatePin g3 in
  let '(g5, p2) := allocatePin g4 in
  let '(g6, e0) := allocateNet g5 in
  let g7 := backup g6 in
  let '(g8, e1) := allocateNet g7 in
  g9 ← restore g8;
  mret ([n0; n1; p0; p1; p2; e0; e1], g9).

End Graph.

(** ** A model of the collaborators *)

(** Modelled from the spec: a net ([GraphComponents.h] is not among the
    sources) is a set of connected pins together with the geometry of its
    IO shape. *)
Record SpecNet : Type := mkSpecNet {
  sn_pinIdxArray : list IndexType;
  sn_ioShape : Box LocType;
}.

(** Modelled from the spec: [Net::flipVert(axis)] ([GraphComponents.h] is not
    among the sources) is the vertical-flip transform of the net's geometry,
    the mirror image about the vertical axis [x = axis]: a point of abscissa
    [x] goes to [2 * axis - x], so the two vertical sides of the shape
    exchange their roles; ordinates are kept. *)
Definition SpecNet_flipVert (axis : LocType) (n : SpecNet) : SpecNet :=
  {| sn_pinIdxArray := sn_pinIdxArray n;
     sn_ioShape :=
       mkBox (2 * axis - xHi (sn_ioShape n)) (yLo (sn_ioShape n))
             (2 * axis - xLo (sn_ioShape n)) (yHi (sn_ioShape n)) |}.

(** Modelled from the spec: a layout ([Layout.h] is not among the sources)
    is physical geometry with a boundary box. *)
Record SpecLayout : Type := mkSpecLayout {
  sl_boundary : Box LocType;
  sl_shapes : list (Box LocType);
}.

(** Modelled from the spec: the implementation strategy is an enumeration
    with the sentinel [UNSET]; the other enumerators are not named. *)
Inductive SpecImplType : Type :=
  | SpecUNSET
  | SpecStrategy (k : nat).

Definition SPEC_LOC_TYPE_MAX : LocType := 2147483647.
Definition SPEC_LOC_TYPE_MIN : LocType := -2147483648.
Definition SPEC_INDEX_TYPE_MAX : IndexType := 4294967295%N.

(** Modelled from the spec: a default-constructed box is the empty box whose
    lower corner sits at the largest coordinate; the default-constructed
    layout has that boundary and no shape, so its boundary has [xLo] equal to
    [LOC_TYPE_MAX]. Nodes are kept as their reference names, a pin as the node
    it belongs to, if any, and the geometry data as a bounding box. *)
Definition SpecModel : Collaborators :=
  {| CktNode := string;
     CktNode_new := "";
     Pin := option IndexType;
     Pin_new := None;
     Net := SpecNet;
     Net_new := mkSpecNet [] (mkBox SPEC_LOC_TYPE_MAX SPEC_LOC_TYPE_MAX
                                    SPEC_LOC_TYPE_MIN SPEC_LOC_TYPE_MIN);
     Net_flipVert := SpecNet_flipVert;
     Layout := SpecLayout;
     Layout_new := mkSpecLayout (mkBox SPEC_LOC_TYPE_MAX SPEC_LOC_TYPE_MAX
                                       SPEC_LOC_TYPE_MIN SPEC_LOC_TYPE_MIN) [];
     Layout_boundary := sl_boundary;
     GdsData := Box LocType;
     GdsData_new := mkBox SPEC_LOC_TYPE_MAX SPEC_LOC_TYPE_MAX
                          SPEC_LOC_TYPE_MIN SPEC_LOC_TYPE_MIN;
     TechDB := unit;
     TechDB_new := tt;
     ImplType := SpecImplType;
     UNSET := SpecUNSET;
     Box_new := mkBox SPEC_LOC_TYPE_MAX SPEC_LOC_TYPE_MAX
                      SPEC_LOC_TYPE_MIN SPEC_LOC_TYPE_MIN;
     LOC_TYPE_MAX := SPEC_LOC_TYPE_MAX;
     INDEX_TYPE_MAX := SPEC_INDEX_TYPE_MAX |}.

(** *** Sample graphs over the model *)

(** A fresh graph. *)
Definition sample_empty : @CktGraph SpecModel := CktGraph_new.

(** Two named nodes, written through [nodeArray()]. *)
Definition sample_two_nodes : @CktGraph SpecModel :=
  with_nodeArray (col := SpecModel) ["M1"; "M2"]%string sample_empty.

(** A graph whose layout has received geometry: its boundary is the box
    from (0, 0) to (100, 50). *)
Definition sample_laid_out : @CktGraph SpecModel :=
  with_layout (col := SpecModel) (mkSpecLayout (mkBox 0 0 100 50) [mkBox 0 0 100 50]) sample_empty.

(** A graph checkpointed when fresh, after which the caller decides the
    implementation and sets a floorplan boundary. *)
Definition sample_decided : @CktGraph SpecModel :=
  with_fpData (setBoundary 0 0 100 50 (_fpData (backup sample_empty)))
    (setImplIdx 3%N
       (setImplType (col := SpecModel) (SpecStrategy 1) (backup sample_empty))).

(** One net whose IO shape spans abscissae 10 to 30. *)
Definition sample_one_net : @CktGraph SpecModel :=
  with_netArray (col := SpecModel) [mkSpecNet [0%N; 1%N] (mkBox 10 0 30 5)] sample_empty.

(** ** Further getters and call sequences *)

Section Calls.
Context {col : Collaborators}.

Definition name (g : CktGraph) : string := _name g.
Definition refName (g : CktGraph) : string := _refName g.

(** Everything a caller can do to a graph: a mutation, [backup()] or
    [restore()]. *)
Inductive Call : Type :=
  | Mutate (m : Mutation)
  | CallBackup
  | CallRestore.

Definition call (c : Call) (g : CktGraph) : Outcome CktGraph :=
  match c with
  | Mutate m => mutate m g
  | CallBackup => Done (backup g)
  | CallRestore => restore g
  end.

Fixpoint call_all (cs : list Call) (g : CktGraph) : Outcome CktGraph :=
  match cs with
  | [] => Done g
  | c :: cs' => g' ← call c g; call_all cs' g'
  end.

(** [flipVert] called once per axis, in order. *)
Fixpoint flipVert_all (axes : list LocType) (g : CktGraph) : CktGraph :=
  match axes with
  | [] => g
  | axis :: axes' => flipVert_all axes' (flipVert axis g)
  end.

(** A net after [Net::flipVert] about each axis, in order. *)
Definition Net_flipVert_all (axes : list LocType) (n : Net) : Net :=
  foldl (fun n' axis => Net_flipVert axis n') n axes.

(** How many of the calls go to one allocator. *)
Definition calls_to (e : Entity) (es : list Entity) : nat :=
  length (filter (fun e' => e' = e) es).





(** The calls that only append: the five allocators and the two
    classifiers. *)
Definition appends_only (m : Mutation) : Prop :=
  match m with
  | CallAllocateNode | CallAllocatePin | CallAllocateNet
  | CallAllocatePsub | CallAllocateNwell
  | CallAddPsubIdx _ | CallAddNwellIdx _ => True
  | _ => False
  end.

(** Each of the five vectors of [g'] starts with the vector of [g]. *)
Definition grown_from (g g' : CktGraph) : Prop :=
  _nodeArray g `prefix_of` _nodeArray g' /\
  _pinArray g `prefix_of` _pinArray g' /\
  _netArray g `prefix_of` _netArray g' /\
  _psubIdxArray g `prefix_of` _psubIdxArray g' /\
  _nwellIdxArray g `prefix_of` _nwellIdxArray g'.

End Calls.

(** *** Calls on the floorplan data *)

Inductive FloorplanCall : Type :=
  | CallSetBoundary (xLo yLo xHi yHi : LocType)
  | CallClearBoundary
  | CallSetNetAssignment (netName : string) (assignStatus : IntType)
  | CallClearNetAssignment.

Definition floorplan_call (c : FloorplanCall) (fp : FloorplanData)
  : FloorplanData :=
  match c with
  | CallSetBoundary x0 y0 x1 y1 => setBoundary x0 y0 x1 y1 fp
  | CallClearBoundary => clearBoundary fp
  | CallSetNetAssignment netName assignStatus =>
      setNetAssignment netName assignStatus fp
  | CallClearNetAssignment => clearNetAssignment fp
  end.

Fixpoint floorplan_call_all (cs : list FloorplanCall) (fp : FloorplanData)
  : FloorplanData :=
  match cs with
  | [] => fp
  | c :: cs' => floorplan_call_all cs' (floorplan_call c fp)
  end.

(** Reading a call log: the status last written for [name], the box last
    stored, and what the last call on each flag left, each starting from the
    value before the log. *)
Definition status_after (name : string) (cs : list FloorplanCall)
  (before : IntType) : IntType :=
  foldl (fun s c =>
           match c with
           | CallSetNetAssignment netName assignStatus =>
               if decide (netName = name) then assignStatus else s
           | _ => s
           end) before cs.

Definition box_after (cs : list FloorplanCall) (before : Box LocType)
  : Box LocType :=
  foldl (fun b c =>
           match c with
           | CallSetBoundary x0 y0 x1 y1 => mkBox x0 y0 x1 y1
           | _ => b
           end) before cs.

Definition boundary_flag_after (cs : list FloorplanCall) (before : bool)
  : bool :=
  foldl (fun b c =>
           match c with
           | CallSetBoundary _ _ _ _ => true
           | CallClearBoundary => false
           | _ => b
           end) before cs.

Definition assignment_flag_after (cs : list FloorplanCall) (before : bool)
  : bool :=
  foldl (fun b c =>
           match c with
           | CallSetNetAssignment _ _ => true
           | CallClearNetAssignment => false
           | _ => b
           end) before cs.

(** *** More sample graphs over the model *)

(** The one-net graph with its net classified as psub and a second, fresh
    net allocated as nwell. *)
Definition sample_classified : @CktGraph SpecModel :=
  (allocateNwell (addPsubIdx 0%N sample_one_net)).1.


(** Two checkpointed graphs whose layouts differ in their boundaries, both
    with [xLo] at [LOC_TYPE_MAX]: the box of a fresh layout, and a box from
    ordinate 0 to (100, 50). *)
Definition sample_checkpointed_fresh : @CktGraph SpecModel :=
  backup sample_empty.

Definition sample_checkpointed_at_max : @CktGraph SpecModel :=
  backup (with_layout (col := SpecModel)
            (mkSpecLayout (mkBox SPEC_LOC_TYPE_MAX 0 100 50) []) sample_empty).

(** A graph checkpointed with two nodes and grown by one node since. *)
Definition sample_grown : @CktGraph SpecModel :=
  (allocateNode (backup sample_two_nodes)).1.

(** * Properties *)

(** ** Vectors *)

Lemma size_snoc {A : Type} (v : list A) (x : A) :
  (size_ (v ++ [x]) - 1)%N = size_ v.
Proof. unfold size_. rewrite length_app. simpl. lia. Qed.

Lemma at_Done {A : Type} (v : list A) (idx : IndexType) (a : A) :
  at_ v idx = Done a <-> v !! N.to_nat idx = Some a.
Proof.
  unfold at_. destruct (v !! N.to_nat idx) as [b|]; split; intros E;
    inversion E; reflexivity.
Qed.

Lemma at_in_range {A : Type} (v : list A) (idx : IndexType) :
  (idx < size_ v)%N -> exists a, at_ v idx = Done a.
Proof.
  unfold size_. intros Hlt.
  destruct (lookup_lt_is_Some_2 v (N.to_nat idx)) as [a Ha]; [lia|].
  exists a. now apply at_Done.
Qed.

Lemma at_snoc_last {A : Type} (v : list A) (x : A) :
  at_ (v ++ [x]) (size_ v) = Done x.
Proof.
  apply at_Done. unfold size_. rewrite Nat2N.id.
  rewrite lookup_app_r by lia. now rewrite Nat.sub_diag.
Qed.

Lemma at_snoc_old {A : Type} (v : list A) (x : A) (idx : IndexType) :
  (idx < size_ v)%N -> at_ (v ++ [x]) idx = at_ v idx.
Proof.
  unfold size_, at_. intros Hlt. rewrite lookup_app_l by lia. reflexivity.
Qed.

(** What [AssertMsg(n <= v.size()); v.resize(n)] does to a vector. *)
Lemma resize_within {A : Type} (n : IndexType) (d : A) (v : list A) :
  (n <= size_ v)%N ->
  resize (N.to_nat n) d v = take (N.to_nat n) v /\
  size_ (resize (N.to_nat n) d v) = n /\
  (forall i, (i < n)%N -> at_ (resize (N.to_nat n) d v) i = at_ v i) /\
  (n = size_ v -> resize (N.to_nat n) d v = v).
Proof.
  unfold size_. intros Hle.
  assert (Hn : (N.to_nat n <= length v)%nat) by lia.
  repeat split.
  - now apply resize_le.
  - rewrite length_resize. lia.
  - intros i Hi. unfold at_. rewrite lookup_resize by lia. reflexivity.
  - intros ->. rewrite Nat2N.id. apply resize_all.
Qed.

Lemma seq_increasing (a n : nat) :
  StronglySorted N.lt (N.of_nat <$> seq a n).
Proof.
  revert a. induction n as [|n IH]; intros a; simpl; constructor.
  - apply IH.
  - apply Forall_forall. intros x Hx.
    apply list_elem_of_fmap in Hx as (k & -> & Hk).
    apply elem_of_seq in Hk. lia.
Qed.

(** ** FloorplanData *)

(** C8. [clearBoundary] and [clearNetAssignment] each change nothing but
    their own is-set flag, which becomes false: the stored box and the
    name-to-side map stay as they were, so after [setBoundary] and then
    [clearBoundary] the box is still the one [setBoundary] stored while
    [isBoundarySet] answers false, and every [netAssignment] query answers
    as before [clearNetAssignment]. *)
Theorem clear_keeps_floorplan_data :
  forall (fp : FloorplanData),
    (isBoundarySet (clearBoundary fp) = false /\
     _boundary (clearBoundary fp) = _boundary fp /\
     _netNameToAssignMap (clearBoundary fp) = _netNameToAssignMap fp /\
     isNetAssignmentSet (clearBoundary fp) = isNetAssignmentSet fp) /\
    (isNetAssignmentSet (clearNetAssignment fp) = false /\
     _netNameToAssignMap (clearNetAssignment fp) = _netNameToAssignMap fp /\
     _boundary (clearNetAssignment fp) = _boundary fp /\
     isBoundarySet (clearNetAssignment fp) = isBoundarySet fp /\
     forall name, netAssignment name (clearNetAssignment fp)
                  = netAssignment name fp) /\
    (forall x0 y0 x1 y1 : LocType,
       isBoundarySet (setBoundary x0 y0 x1 y1 fp) = true /\
       isBoundarySet (clearBoundary (setBoundary x0 y0 x1 y1 fp)) = false /\
       _boundary (clearBoundary (setBoundary x0 y0 x1 y1 fp))
       = mkBox x0 y0 x1 y1) /\
    (forall name side,
       isNetAssignmentSet (clearNetAssignment (setNetAssignment name side fp))
       = false /\
       netAssignment name (clearNetAssignment (setNetAssignment name side fp))
       = side).
Proof.
  intros fp. repeat split.
  unfold netAssignment. simpl. now rewrite lookup_insert_eq.
Qed.

Section GraphProperties.
Context {col : Collaborators}.

(** *** Assignment to one member *)

Lemma with_nodeArray_same (g : CktGraph) : with_nodeArray (_nodeArray g) g = g.
Proof. now destruct g. Qed.

Lemma with_pinArray_same (g : CktGraph) : with_pinArray (_pinArray g) g = g.
Proof. now destruct g. Qed.

Lemma with_netArray_same (g : CktGraph) : with_netArray (_netArray g) g = g.
Proof. now destruct g. Qed.

(** *** Allocation *)

Lemma allocate_index (e : Entity) (g : CktGraph) :
  (allocate e g).2 = numEntities e g.
Proof. destruct e; simpl; apply size_snoc. Qed.

Lemma allocate_grows (e e' : Entity) (g : CktGraph) :
  numEntities e' (allocate e g).1
  = if decide (e = e') then (numEntities e' g + 1)%N else numEntities e' g.
Proof.
  destruct e, e'; simpl; try reflexivity;
    unfold numNodes, numPins, numNets, size_; simpl;
    rewrite length_app; simpl; lia.
Qed.

Lemma returned_cons (e e0 : Entity) (idx : IndexType) log :
  returned e ((e0, idx) :: log)
  = if decide (e0 = e) then idx :: returned e log else returned e log.
Proof.
  unfold returned. rewrite filter_cons. simpl.
  destruct (decide (e0 = e)); reflexivity.
Qed.

Lemma allocate_all_returned (e : Entity) (es : list Entity) (g : CktGraph) :
  returned e (allocate_all es g).2
  = N.of_nat <$> seq (N.to_nat (numEntities e g))
                     (length (filter (fun e' => e' = e) es)).
Proof.
  revert g. induction es as [|e0 es IH]; intros g; [reflexivity|].
  simpl. pose proof (allocate_index e0 g) as Hidx.
  pose proof (allocate_grows e0 e g) as Hgrow.
  destruct (allocate e0 g) as [g1 idx]. simpl in Hidx, Hgrow.
  specialize (IH g1). destruct (allocate_all es g1) as [g2 log].
  simpl in IH |- *. rewrite returned_cons, filter_cons, IH, Hgrow.
  destruct (decide (e0 = e)) as [->|Hne]; [|reflexivity].
  simpl. rewrite Hidx, N2Nat.id.
  replace (N.to_nat (numEntities e g + 1)) with (S (N.to_nat (numEntities e g)))
    by lia.
  reflexivity.
Qed.

Lemma allocate_all_grows (e : Entity) (es : list Entity) (g : CktGraph) :
  numEntities e (allocate_all es g).1
  = (numEntities e g + N.of_nat (length (filter (fun e' => e' = e) es)))%N.
Proof.
  revert g. induction es as [|e0 es IH]; intros g; simpl; [lia|].
  pose proof (allocate_grows e0 e g) as Hgrow.
  destruct (allocate e0 g) as [g1 idx]. simpl in Hgrow.
  specialize (IH g1). destruct (allocate_all es g1) as [g2 log].
  simpl in IH |- *. rewrite IH, Hgrow, filter_cons.
  destruct (decide (e0 = e)); simpl; lia.
Qed.

(** C5. Each of [allocateNode], [allocatePin] and [allocateNet] appends one
    default-constructed entity to its own vector, changes nothing else,
    and returns the size that vector had before the call.  Hence, over any
    sequence of such calls, the indices one allocator returns are the
    consecutive numbers from the starting size of its vector on, strictly
    increasing, and from a fresh graph they are 0, 1, 2, ... *)
Theorem allocate_returns_previous_size :
  forall (es : list Entity) (g : CktGraph),
    (allocateNode g
     = (with_nodeArray (_nodeArray g ++ [CktNode_new]) g, numNodes g) /\
     allocatePin g
     = (with_pinArray (_pinArray g ++ [Pin_new]) g, numPins g) /\
     allocateNet g
     = (with_netArray (_netArray g ++ [Net_new]) g, numNets g)) /\
    (forall e,
       let calls := length (filter (fun e' => e' = e) es) in
       returned e (allocate_all es g).2
       = (N.of_nat <$> seq (N.to_nat (numEntities e g)) calls) /\
       StronglySorted N.lt (returned e (allocate_all es g).2) /\
       numEntities e (allocate_all es g).1
       = (numEntities e g + N.of_nat calls)%N /\
       returned e (allocate_all es CktGraph_new).2
       = (N.of_nat <$> seq 0 calls)).
Proof.
  intros es g. split.
  - unfold allocateNode, allocatePin, allocateNet. cbn [_nodeArray _pinArray
      _netArray with_nodeArray with_pinArray with_netArray].
    rewrite !size_snoc. repeat split.
  - intros e calls. subst calls. repeat split.
    + apply allocate_all_returned.
    + rewrite allocate_all_returned. apply seq_increasing.
    + apply allocate_all_grows.
    + rewrite allocate_all_returned. now destruct e.
Qed.

(** *** Resizing *)

(** C1, as the code has it.  For each of the three entity vectors,
    [resize...Array(n)] fails on its assertion when [n] is strictly larger
    than the current size; when [n] is at most the current size it
    succeeds, the vector keeps exactly its first [n] entities, each
    unchanged at its index, nothing else in the graph changes, and for [n]
    equal to the current size the graph is left as it was. *)
Theorem resize_accepts_only_shrinking :
  forall (n : IndexType) (g : CktGraph),
    (((numNodes g < n)%N -> resizeNodeArray n g = Abort AssertionFailure) /\
     ((n <= numNodes g)%N ->
      exists g', resizeNodeArray n g = Done g' /\
        g' = with_nodeArray (take (N.to_nat n) (_nodeArray g)) g /\
        numNodes g' = n /\
        (forall i, (i < n)%N -> node i g' = node i g) /\
        (n = numNodes g -> g' = g))) /\
    (((numPins g < n)%N -> resizePinArray n g = Abort AssertionFailure) /\
     ((n <= numPins g)%N ->
      exists g', resizePinArray n g = Done g' /\
        g' = with_pinArray (take (N.to_nat n) (_pinArray g)) g /\
        numPins g' = n /\
        (forall i, (i < n)%N -> pin i g' = pin i g) /\
        (n = numPins g -> g' = g))) /\
    (((numNets g < n)%N -> resizeNetArray n g = Abort AssertionFailure) /\
     ((n <= numNets g)%N ->
      exists g', resizeNetArray n g = Done g' /\
        g' = with_netArray (take (N.to_nat n) (_netArray g)) g /\
        numNets g' = n /\
        (forall i, (i < n)%N -> net i g' = net i g) /\
        (n = numNets g -> g' = g))).
Proof.
  intros n g.
  unfold resizeNodeArray, resizePinArray, resizeNetArray, AssertMsg,
    numNodes, numPins, numNets, node, pin, net.
  repeat split.
  - intros Hgt. apply N.leb_gt in Hgt. now rewrite Hgt.
  - intros Hle. pose proof Hle as Hb. apply N.leb_le in Hb. rewrite Hb.
    destruct (resize_within n CktNode_new (_nodeArray g) Hle)
      as (Htake & Hsize & Hat & Hsame).
    eexists. split; [reflexivity|]. repeat split.
    + now rewrite Htake.
    + exact Hsize.
    + exact Hat.
    + intros E. rewrite (Hsame E). apply with_nodeArray_same.
  - intros Hgt. apply N.leb_gt in Hgt. now rewrite Hgt.
  - intros Hle. pose proof Hle as Hb. apply N.leb_le in Hb. rewrite Hb.
    destruct (resize_within n Pin_new (_pinArray g) Hle)
      as (Htake & Hsize & Hat & Hsame).
    eexists. split; [reflexivity|]. repeat split.
    + now rewrite Htake.
    + exact Hsize.
    + exact Hat.
    + intros E. rewrite (Hsame E). apply with_pinArray_same.
  - intros Hgt. apply N.leb_gt in Hgt. now rewrite Hgt.
  - intros Hle. pose proof Hle as Hb. apply N.leb_le in Hb. rewrite Hb.
    destruct (resize_within n Net_new (_netArray g) Hle)
      as (Htake & Hsize & Hat & Hsame).
    eexists. split; [reflexivity|]. repeat split.
    + now rewrite Htake.
    + exact Hsize.
    + exact Hat.
    + intros E. rewrite (Hsame E). apply with_netArray_same.
Qed.

(** *** Classification lists *)

(** C9. For a valid net index [i], [addPsubIdx(i)] appends [i] to the psub
    list at position [k], the former length of that list, and [psub(k)]
    then resolves, through entry [k], to the very slot [net(i)] reads, an
    existing net.  [allocatePsub()] returns the new net's index, which is
    a valid net index and the last entry of the psub list, and [psub] at
    that last position is the new, default-constructed net. *)
Theorem psub_is_the_classified_net :
  forall (g : CktGraph),
    (forall i, (i < numNets g)%N ->
       at_ (_psubIdxArray (addPsubIdx i g)) (numPsubs g) = Done i /\
       numPsubs (addPsubIdx i g) = (numPsubs g + 1)%N /\
       psub (numPsubs g) (addPsubIdx i g) = net i (addPsubIdx i g) /\
       net i (addPsubIdx i g) = net i g /\
       exists n, psub (numPsubs g) (addPsubIdx i g) = Done n) /\
    ((allocatePsub g).2 = numNets g /\
     ((allocatePsub g).2 < numNets (allocatePsub g).1)%N /\
     _netArray (allocatePsub g).1 = _netArray g ++ [Net_new] /\
     last (_psubIdxArray (allocatePsub g).1) = Some (allocatePsub g).2 /\
     at_ (_psubIdxArray (allocatePsub g).1) (numPsubs (allocatePsub g).1 - 1)%N
     = Done (allocatePsub g).2 /\
     psub (numPsubs (allocatePsub g).1 - 1)%N (allocatePsub g).1
     = net (allocatePsub g).2 (allocatePsub g).1 /\
     net (allocatePsub g).2 (allocatePsub g).1 = Done Net_new).
Proof.
  intros g. split.
  - intros i Hi. unfold psub, net, numPsubs, addPsubIdx. simpl.
    rewrite at_snoc_last. simpl. repeat split.
    + unfold size_. rewrite length_app. simpl. lia.
    + now apply at_in_range.
  - unfold allocatePsub, allocateNet, psub, net, numPsubs, numNets. simpl.
    rewrite !size_snoc, at_snoc_last. simpl. rewrite at_snoc_last.
    repeat split.
    + unfold size_. rewrite length_app. simpl. lia.
    + apply last_snoc.
Qed.

(** *** Checkpoint *)

Lemma Assert_true (b : bool) : b = true -> Assert b = Done tt.
Proof. now intros ->. Qed.

Lemma Assert_false (b : bool) : b = false -> Assert b = Abort AssertionFailure.
Proof. now intros ->. Qed.

(** [restore] completes exactly when the layout held by the slot passes
    the assertion, and then it is the nine swaps. *)
Lemma restore_Done (g : CktGraph) :
  xLo (Layout_boundary (bk_layout (_backup g))) = LOC_TYPE_MAX ->
  restore g = Done (restore_swaps g).
Proof.
  intros Hx. unfold restore. cbn [restore_swaps _layout].
  rewrite Assert_true; [reflexivity|]. now apply Z.eqb_eq.
Qed.

Lemma restore_Abort (g : CktGraph) :
  xLo (Layout_boundary (bk_layout (_backup g))) <> LOC_TYPE_MAX ->
  restore g = Abort AssertionFailure.
Proof.
  intros Hx. unfold restore. cbn [restore_swaps _layout].
  rewrite Assert_false; [reflexivity|]. now apply Z.eqb_neq.
Qed.

Lemma restore_swaps_backup (g : CktGraph) : restore_swaps (backup g) = backup g.
Proof. now destruct g. Qed.

(** No mutation touches the checkpoint slot. *)
Lemma resize_backup (b : bool) (g1 g' : CktGraph) (msg : string) :
  (_ ← AssertMsg b msg; mret g1) = Done g' -> g' = g1.
Proof. destruct b; simpl; intros E; inversion E; reflexivity. Qed.

Lemma mutate_backup (m : Mutation) (g g' : CktGraph) :
  mutate m g = Done g' -> _backup g' = _backup g.
Proof.
  destruct m; simpl;
    first [ intros E; inversion E; subst g'; reflexivity
          | intros E; apply resize_backup in E; subst g'; reflexivity ].
Qed.

Lemma mutate_all_backup (ms : list Mutation) (g g' : CktGraph) :
  mutate_all ms g = Done g' -> _backup g' = _backup g.
Proof.
  revert g. induction ms as [|m ms IH]; intros g; simpl.
  - intros E. inversion E. reflexivity.
  - destruct (mutate m g) as [g1|f] eqn:Em; simpl; [|discriminate].
    intros E. rewrite (IH _ E). now apply mutate_backup with m.
Qed.

(** C3, as the code has it.  [backup()] followed at once by [restore()]
    completes when the boundary of the graph's layout has [xLo] equal to
    [LOC_TYPE_MAX], and then every snapshotted member (the three entity
    vectors, both classification lists, layout, implemented flag, flip
    flag, geometry data) equals its value before [backup()], as does
    every other member; on any other layout [restore()] stops on its
    assertion. *)
Theorem backup_restore_round_trip :
  forall (g : CktGraph),
    (xLo (Layout_boundary (_layout g)) = LOC_TYPE_MAX ->
     exists g', restore (backup g) = Done g' /\
       _nodeArray g' = _nodeArray g /\
       _pinArray g' = _pinArray g /\
       _netArray g' = _netArray g /\
       _psubIdxArray g' = _psubIdxArray g /\
       _nwellIdxArray g' = _nwellIdxArray g /\
       _layout g' = _layout g /\
       _isImplemented g' = _isImplemented g /\
       _flipVertFlag g' = _flipVertFlag g /\
       _gdsData g' = _gdsData g /\
       g' = backup g) /\
    (xLo (Layout_boundary (_layout g)) <> LOC_TYPE_MAX ->
     restore (backup g) = Abort AssertionFailure).
Proof.
  intros g. split; intros Hx.
  - exists (backup g). rewrite restore_Done by exact Hx.
    rewrite restore_swaps_backup. repeat split.
  - now apply restore_Abort.
Qed.

(** C2, as the code has it.  [backup()] captures nine members: the node,
    pin and net vectors, the two classification lists, the layout, the
    implemented flag, the flip flag and the geometry data.  After any
    mutations that follow, a [restore()] that passes its assertion gives
    these nine members the values they had at [backup()].  The floorplan
    annotation, [implType] and [implIdx], like the technology binding
    and the two names, are not captured: [restore()] leaves them as the
    mutations left them. *)
Theorem restore_reinstates_nine_members :
  forall (g : CktGraph) (ms : list Mutation) (g2 : CktGraph),
    xLo (Layout_boundary (_layout g)) = LOC_TYPE_MAX ->
    mutate_all ms (backup g) = Done g2 ->
    exists g', restore g2 = Done g' /\
      (_nodeArray g' = _nodeArray g /\
       _pinArray g' = _pinArray g /\
       _netArray g' = _netArray g /\
       _psubIdxArray g' = _psubIdxArray g /\
       _nwellIdxArray g' = _nwellIdxArray g /\
       _layout g' = _layout g /\
       _isImplemented g' = _isImplemented g /\
       _flipVertFlag g' = _flipVertFlag g /\
       _gdsData g' = _gdsData g) /\
      (_fpData g' = _fpData g2 /\
       _implType g' = _implType g2 /\
       _implIdx g' = _implIdx g2 /\
       _techDB g' = _techDB g2 /\
       _name g' = _name g2 /\
       _refName g' = _refName g2).
Proof.
  intros g ms g2 Hx Hms. apply mutate_all_backup in Hms.
  exists (restore_swaps g2). split.
  - apply restore_Done. now rewrite Hms.
  - unfold restore_swaps. simpl. rewrite Hms. repeat split.
Qed.

(** C4. From a fresh graph whose default layout passes the assertion of
    [restore()]: the two node allocations return 0 and 1, the three pin
    allocations 0, 1 and 2, the net allocation 0; after [backup()] the
    next net allocation returns 1; after [restore()] the net vector has
    size 1 and holds exactly the net allocated first. *)
Theorem checkpoint_scenario_keeps_first_net :
  xLo (Layout_boundary Layout_new) = LOC_TYPE_MAX ->
  exists g9,
    checkpoint_scenario = Done ([0; 1; 0; 1; 2; 0; 1]%N, g9) /\
    numNets g9 = 1%N /\
    _netArray g9 = [Net_new] /\
    net 0%N g9 = net 0%N (allocateNet CktGraph_new).1 /\
    net 1%N g9 = Abort OutOfRange.
Proof.
  intros Hx. unfold checkpoint_scenario. simpl.
  unfold restore. cbn [restore_swaps _layout _backup bk_layout].
  rewrite Assert_true by now apply Z.eqb_eq.
  eexists. split; [reflexivity|]. repeat split.
Qed.


(** C10, as the code has it.  After its swaps [restore()] asserts that the
    boundary of the layout now live, the one the slot held, has [xLo] equal
    to [LOC_TYPE_MAX].  Whenever that layout's boundary has another [xLo],
    [restore()] stops with an assertion failure instead of completing;
    whenever it has that [xLo], whatever the three other coordinates,
    [restore()] completes with the swapped state. *)
Theorem restore_asserts_default_boundary :
  forall (g : CktGraph),
    _layout (restore_swaps g) = bk_layout (_backup g) /\
    (xLo (Layout_boundary (bk_layout (_backup g))) <> LOC_TYPE_MAX ->
     restore g = Abort AssertionFailure) /\
    (xLo (Layout_boundary (bk_layout (_backup g))) = LOC_TYPE_MAX ->
     restore g = Done (restore_swaps g)).
Proof.
  intros g. split; [reflexivity|]. split.
  - apply restore_Abort.
  - apply restore_Done.
Qed.

(** *** Flipping *)

Lemma flipVert_members (a : LocType) (g : CktGraph) :
  flipVertFlag (flipVert a g) = negb (flipVertFlag g) /\
  _netArray (flipVert a g) = (Net_flipVert a <$> _netArray g).
Proof. split; reflexivity. Qed.

(** Two flips about the same axis undo each other as soon as the flip of
    a net does. *)
Lemma flipVert_twice (a : LocType) (g : CktGraph) :
  (forall n, Net_flipVert a (Net_flipVert a n) = n) ->
  flipVert a (flipVert a g) = g.
Proof.
  intros Hnet. destruct g. unfold flipVert. simpl.
  rewrite negb_involutive, <- list_fmap_compose.
  rewrite (list_fmap_ext _ id _ (fun _ n _ => Hnet n)), list_fmap_id.
  reflexivity.
Qed.

End GraphProperties.

(** ** The model of the collaborators *)

Lemma SpecNet_flipVert_twice (a : LocType) (n : SpecNet) :
  SpecNet_flipVert a (SpecNet_flipVert a n) = n.
Proof.
  destruct n as [pins [x0 y0 x1 y1]]. unfold SpecNet_flipVert. simpl.
  f_equal. f_equal; lia.
Qed.

Lemma SpecModel_default_layout :
  xLo (@Layout_boundary SpecModel Layout_new) = @LOC_TYPE_MAX SpecModel.
Proof. reflexivity. Qed.

(** C7. Over the model of the net's flip as the mirror image about
    [x = axis]: [flipVert(a)] negates the flip flag and applies the net's
    flip to every net, and two [flipVert(a)] in a row give back every net
    with its geometry as before the first, the flag with its original value,
    and indeed the whole graph. *)
Theorem flipVert_twice_restores :
  forall (a : LocType) (g : @CktGraph SpecModel),
    flipVertFlag (flipVert a g) = negb (flipVertFlag g) /\
    _netArray (flipVert a g) = (SpecNet_flipVert a <$> _netArray g) /\
    flipVertFlag (flipVert a (flipVert a g)) = flipVertFlag g /\
    _netArray (flipVert a (flipVert a g)) = _netArray g /\
    flipVert a (flipVert a g) = g.
Proof.
  intros a g.
  assert (Hback : flipVert a (flipVert a g) = g)
    by (apply flipVert_twice; intros n; apply SpecNet_flipVert_twice).
  rewrite Hback. repeat split.
Qed.

(** ** Concrete runs *)

Example allocate_all_sample :
  (allocate_all [ANode; APin; ANode; ANet; APin] sample_two_nodes).2
  = [(ANode, 2%N); (APin, 0%N); (ANode, 3%N); (ANet, 0%N); (APin, 1%N)].
Proof. reflexivity. Qed.

Example flipVert_sample :
  _netArray (flipVert 0 sample_one_net)
  = [mkSpecNet [0%N; 1%N] (mkBox (-30) 0 (-10) 5)] /\
  flipVertFlag (flipVert 0 sample_one_net) = true.
Proof. split; reflexivity. Qed.

Example netAssignment_sample :
  netAssignment "vdd" (_fpData sample_empty) = -1 /\
  netAssignment "vdd" (setNetAssignment "vdd" 1 (_fpData sample_empty)) = 1.
Proof. split; reflexivity. Qed.

(** C1, against the claim as written: on a graph of two nodes, a resize to
    1, below the current size, does not fail but drops the second node, and
    a resize to 3, above the current size, fails on the assertion. *)
Lemma resize_shrinks_and_refuses_growth :
  numNodes sample_two_nodes = 2%N /\
  resizeNodeArray 1%N sample_two_nodes
  = Done (with_nodeArray (col := SpecModel) ["M1"%string] sample_two_nodes) /\
  node 1%N sample_two_nodes = Done "M2"%string /\
  resizeNodeArray 3%N sample_two_nodes = Abort AssertionFailure.
Proof. repeat split. Qed.

Lemma resize_accepts_only_shrinking_witness :
  resizeNodeArray 3%N sample_two_nodes = Abort AssertionFailure /\
  exists g', resizeNodeArray 1%N sample_two_nodes = Done g' /\
    g' = with_nodeArray (take 1 (_nodeArray sample_two_nodes)) sample_two_nodes /\
    numNodes g' = 1%N /\
    (forall i, (i < 1)%N -> node i g' = node i sample_two_nodes) /\
    (1%N = numNodes sample_two_nodes -> g' = sample_two_nodes).
Proof.
  split.
  - apply (proj1 (proj1
      (resize_accepts_only_shrinking (col := SpecModel) 3%N sample_two_nodes))).
    reflexivity.
  - apply (proj2 (proj1
      (resize_accepts_only_shrinking (col := SpecModel) 1%N sample_two_nodes))).
    intros E. discriminate E.
Defined.

(** C2, against the claim as written: a graph is checkpointed when fresh,
    then the caller sets [implType], [implIdx] and a floorplan boundary;
    [restore()] completes and leaves all three at their later values, not
    at those they had at [backup()]. *)
Lemma restore_keeps_later_selector_and_floorplan :
  exists g', restore sample_decided = Done g' /\
    implIdx sample_empty = SPEC_INDEX_TYPE_MAX /\
    implIdx g' = 3%N /\
    implType sample_empty = SpecUNSET /\
    implType g' = SpecStrategy 1 /\
    isBoundarySet (_fpData sample_empty) = false /\
    isBoundarySet (_fpData g') = true.
Proof. eexists. repeat split. Qed.

Lemma restore_reinstates_nine_members_witness :
  exists g', restore sample_decided = Done g' /\
    (_nodeArray g' = _nodeArray sample_empty /\
     _pinArray g' = _pinArray sample_empty /\
     _netArray g' = _netArray sample_empty /\
     _psubIdxArray g' = _psubIdxArray sample_empty /\
     _nwellIdxArray g' = _nwellIdxArray sample_empty /\
     _layout g' = _layout sample_empty /\
     _isImplemented g' = _isImplemented sample_empty /\
     _flipVertFlag g' = _flipVertFlag sample_empty /\
     _gdsData g' = _gdsData sample_empty) /\
    (_fpData g' = _fpData sample_decided /\
     _implType g' = _implType sample_decided /\
     _implIdx g' = _implIdx sample_decided /\
     _techDB g' = _techDB sample_decided /\
     _name g' = _name sample_decided /\
     _refName g' = _refName sample_decided).
Proof.
  apply (restore_reinstates_nine_members (col := SpecModel) sample_empty
           [CallSetImplType (col := SpecModel) (SpecStrategy 1); CallSetImplIdx 3%N;
            ThroughFpData (setBoundary 0 0 100 50)]).
  - reflexivity.
  - reflexivity.
Defined.

(** C3, against the claim as written: on a graph whose layout has the
    boundary from (0, 0) to (100, 50), [backup()] followed at once by
    [restore()] stops on the assertion. *)
Lemma round_trip_aborts_on_laid_out_graph :
  xLo (Layout_boundary (_layout sample_laid_out)) = 0 /\
  restore (backup sample_laid_out) = Abort AssertionFailure.
Proof. split; reflexivity. Qed.

Lemma backup_restore_round_trip_witness :
  exists g', restore (backup sample_two_nodes) = Done g' /\
    _nodeArray g' = _nodeArray sample_two_nodes /\
    _pinArray g' = _pinArray sample_two_nodes /\
    _netArray g' = _netArray sample_two_nodes /\
    _psubIdxArray g' = _psubIdxArray sample_two_nodes /\
    _nwellIdxArray g' = _nwellIdxArray sample_two_nodes /\
    _layout g' = _layout sample_two_nodes /\
    _isImplemented g' = _isImplemented sample_two_nodes /\
    _flipVertFlag g' = _flipVertFlag sample_two_nodes /\
    _gdsData g' = _gdsData sample_two_nodes /\
    g' = backup sample_two_nodes.
Proof.
  apply (proj1 (backup_restore_round_trip (col := SpecModel) sample_two_nodes)).
  reflexivity.
Defined.

Lemma checkpoint_scenario_witness :
  exists g9,
    checkpoint_scenario (col := SpecModel)
    = Done ([0; 1; 0; 1; 2; 0; 1]%N, g9) /\
    numNets g9 = 1%N /\
    _netArray g9 = [Net_new] /\
    net 0%N g9 = net 0%N (allocateNet CktGraph_new).1 /\
    net 1%N g9 = Abort OutOfRange.
Proof.
  apply (checkpoint_scenario_keeps_first_net (col := SpecModel)).
  reflexivity.
Defined.



Lemma psub_is_the_classified_net_witness :
  at_ (_psubIdxArray (addPsubIdx 0%N sample_one_net)) (numPsubs sample_one_net)
  = Done 0%N /\
  numPsubs (addPsubIdx 0%N sample_one_net) = (numPsubs sample_one_net + 1)%N /\
  psub (numPsubs sample_one_net) (addPsubIdx 0%N sample_one_net)
  = net 0%N (addPsubIdx 0%N sample_one_net) /\
  net 0%N (addPsubIdx 0%N sample_one_net) = net 0%N sample_one_net /\
  exists n, psub (numPsubs sample_one_net) (addPsubIdx 0%N sample_one_net)
            = Done n.
Proof.
  apply (proj1 (psub_is_the_classified_net (col := SpecModel) sample_one_net)).
  reflexivity.
Defined.

(** C10, against the claim as written: two checkpointed layouts whose
    boundaries differ, so that at most one of them is the default one, both
    with [xLo] at [LOC_TYPE_MAX]; [restore()] completes on both, the
    boundary from ordinate 0 to (100, 50) included. *)
Lemma restore_passes_boundary_with_xLo_at_max :
  Layout_boundary (bk_layout (_backup sample_checkpointed_at_max))
  = mkBox SPEC_LOC_TYPE_MAX 0 100 50 /\
  Layout_boundary (bk_layout (_backup sample_checkpointed_at_max))
  <> Layout_boundary (bk_layout (_backup sample_checkpointed_fresh)) /\
  restore sample_checkpointed_at_max
  = Done (restore_swaps sample_checkpointed_at_max) /\
  restore sample_checkpointed_fresh
  = Done (restore_swaps sample_checkpointed_fresh).
Proof.
  split; [reflexivity|]. split; [|split; reflexivity].
  intros E. discriminate E.
Qed.

Lemma restore_asserts_default_boundary_witness :
  restore (backup sample_laid_out) = Abort AssertionFailure /\
  restore (backup sample_one_net) = Done (restore_swaps (backup sample_one_net)).
Proof.
  split.
  - apply (proj1 (proj2 (restore_asserts_default_boundary (col := SpecModel)
                           (backup sample_laid_out)))).
    intros E. discriminate E.
  - apply (proj2 (proj2 (restore_asserts_default_boundary (col := SpecModel)
                           (backup sample_one_net)))).
    reflexivity.
Defined.

(** * Further properties *)

(** ** FloorplanData over call logs *)

Lemma netAssignment_setNetAssignment (name netName : string) (s : IntType)
  (fp : FloorplanData) :
  netAssignment name (setNetAssignment netName s fp)
  = if decide (netName = name) then s else netAssignment name fp.
Proof.
  unfold netAssignment. simpl. destruct (decide (netName = name)) as [->|Hne].
  - now rewrite lookup_insert_eq.
  - now rewrite lookup_insert_ne.
Qed.

(** X1. After any log of floorplan calls, [netAssignment(name)] answers the
    status given by the last [setNetAssignment] on that very name, whatever
    was done to other names, to the boundary or to the is-set flags in
    between; with no such call it answers what it answered before the log,
    which on a default-constructed [FloorplanData] is -1 for every name. *)
Theorem netAssignment_last_write_wins :
  forall (col : Collaborators) (name : string) (cs : list FloorplanCall)
         (fp : FloorplanData),
    netAssignment name (floorplan_call_all cs fp)
    = status_after name cs (netAssignment name fp) /\
    netAssignment name FloorplanData_new = -1 /\
    netAssignment name (floorplan_call_all cs FloorplanData_new)
    = status_after name cs (-1).
Proof.
  intros col name cs fp.
  assert (Hgen : forall fp', netAssignment name (floorplan_call_all cs fp')
                             = status_after name cs (netAssignment name fp')).
  { unfold status_after. induction cs as [|c cs IH]; intros fp'; [reflexivity|].
    simpl. rewrite IH. f_equal. destruct c; simpl; try reflexivity.
    apply netAssignment_setNetAssignment. }
  split; [apply Hgen|]. split; [reflexivity|]. now rewrite Hgen.
Qed.

(** X2. After any log of floorplan calls the stored boundary is the box of
    the last [setBoundary], no [clearBoundary] ever erasing or changing it;
    [isBoundarySet()] tells whether the last of the [setBoundary] and
    [clearBoundary] calls was a [setBoundary], and [isNetAssignmentSet()]
    likewise for [setNetAssignment] and [clearNetAssignment]; calls on the
    net assignment never move the box or the boundary flag, and calls on
    the boundary never move the assignment flag. *)
Theorem floorplan_state_follows_log :
  forall (cs : list FloorplanCall) (fp : FloorplanData),
    _boundary (floorplan_call_all cs fp) = box_after cs (_boundary fp) /\
    isBoundarySet (floorplan_call_all cs fp)
    = boundary_flag_after cs (isBoundarySet fp) /\
    isNetAssignmentSet (floorplan_call_all cs fp)
    = assignment_flag_after cs (isNetAssignmentSet fp).
Proof.
  unfold box_after, boundary_flag_after, assignment_flag_after.
  induction cs as [|c cs IH]; intros fp; [repeat split|].
  simpl. destruct (IH (floorplan_call c fp)) as (Hb & Hf & Ha).
  rewrite Hb, Hf, Ha. destruct c; repeat split.
Qed.

(** X3. How the floorplan setters compose: a second [setNetAssignment] on
    the same name replaces the first, on distinct names two
    [setNetAssignment] calls commute, a second [setBoundary] replaces the
    first, and [setBoundary] commutes with [setNetAssignment]. *)
Theorem floorplan_setters_compose :
  forall (fp : FloorplanData) (n1 n2 : string) (s1 s2 : IntType)
         (x0 y0 x1 y1 u0 v0 u1 v1 : LocType),
    setNetAssignment n1 s2 (setNetAssignment n1 s1 fp)
    = setNetAssignment n1 s2 fp /\
    (n1 <> n2 ->
     setNetAssignment n1 s1 (setNetAssignment n2 s2 fp)
     = setNetAssignment n2 s2 (setNetAssignment n1 s1 fp)) /\
    setBoundary u0 v0 u1 v1 (setBoundary x0 y0 x1 y1 fp)
    = setBoundary u0 v0 u1 v1 fp /\
    setBoundary x0 y0 x1 y1 (setNetAssignment n1 s1 fp)
    = setNetAssignment n1 s1 (setBoundary x0 y0 x1 y1 fp).
Proof.
  intros. unfold setNetAssignment, setBoundary. simpl. repeat split.
  - f_equal. apply insert_insert_eq.
  - intros Hne. f_equal. now apply insert_insert_ne.
Qed.

(** ** Bounds of the accessors *)

Lemma at_Abort {A : Type} (v : list A) (idx : IndexType) :
  at_ v idx = Abort OutOfRange <-> (size_ v <= idx)%N.
Proof.
  unfold at_, size_. split.
  - destruct (v !! N.to_nat idx) eqn:E; [discriminate|].
    intros _. apply lookup_ge_None in E. lia.
  - intros Hge. rewrite (proj2 (lookup_ge_None v (N.to_nat idx))) by lia.
    reflexivity.
Qed.

Lemma at_in_range_iff {A : Type} (v : list A) (idx : IndexType) :
  (idx < size_ v)%N <-> exists a, at_ v idx = Done a.
Proof.
  split; [apply at_in_range|]. intros [a Ha].
  destruct (N.lt_ge_cases idx (size_ v)) as [Hlt|Hge]; [exact Hlt|].
  apply at_Abort in Hge. congruence.
Qed.

Lemma at_no_assertion {A : Type} (v : list A) (idx : IndexType) :
  at_ v idx <> Abort AssertionFailure.
Proof. unfold at_. destruct (v !! N.to_nat idx); discriminate. Qed.

Lemma at_snoc_Done {A : Type} (v : list A) (x a : A) (idx : IndexType) :
  at_ v idx = Done a -> at_ (v ++ [x]) idx = Done a.
Proof.
  rewrite !at_Done. intros E. now apply lookup_app_l_Some.
Qed.

Section MoreGraphProperties.
Context {col : Collaborators}.

(** X4. [node(i)], [pin(i)] and [net(i)] are bounds-checked: each returns
    an entity exactly when [i] is below the size of its vector and throws
    out-of-range exactly when [i] is at or above it, so on a fresh graph
    every access throws. *)
Theorem accessors_check_bounds :
  forall (g : CktGraph) (i : IndexType),
    (((i < numNodes g)%N <-> exists n, node i g = Done n) /\
     ((numNodes g <= i)%N <-> node i g = Abort OutOfRange)) /\
    (((i < numPins g)%N <-> exists p, pin i g = Done p) /\
     ((numPins g <= i)%N <-> pin i g = Abort OutOfRange)) /\
    (((i < numNets g)%N <-> exists n, net i g = Done n) /\
     ((numNets g <= i)%N <-> net i g = Abort OutOfRange)) /\
    (node i CktGraph_new = Abort OutOfRange /\
     pin i CktGraph_new = Abort OutOfRange /\
     net i CktGraph_new = Abort OutOfRange).
Proof.
  intros g i. unfold node, pin, net, numNodes, numPins, numNets.
  repeat split; try (apply at_in_range_iff); try (apply at_Abort);
    try (apply at_Abort; unfold size_; simpl; lia).
Qed.

Lemma through_Abort (idxs : list IndexType) (nets : list Net) (k : IndexType) :
  (netIdx ← at_ idxs k; at_ nets netIdx) = Abort OutOfRange
  <-> ((size_ idxs <= k)%N \/
       exists i, at_ idxs k = Done i /\ (size_ nets <= i)%N).
Proof.
  split.
  - destruct (at_ idxs k) as [i|f] eqn:E; simpl.
    + intros Hi. right. exists i. split; [reflexivity|]. now apply at_Abort.
    + intros Hf. left. apply at_Abort. congruence.
  - intros [Hk|(i & E & Hi)].
    + apply at_Abort in Hk. now rewrite Hk.
    + rewrite E. simpl. now apply at_Abort.
Qed.

Lemma through_no_assertion (idxs : list IndexType) (nets : list Net)
  (k : IndexType) :
  (netIdx ← at_ idxs k; at_ nets netIdx) <> Abort AssertionFailure.
Proof.
  destruct (at_ idxs k) as [i|f] eqn:E; simpl.
  - apply at_no_assertion.
  - intros Hf. inversion Hf; subst f. now apply at_no_assertion in E.
Qed.

(** X5. [psub(k)] and [nwell(k)] go through two range checks and fail in
    exactly two ways, both out-of-range: position [k] is not in the
    classification list, or the entry found there is not an index of the
    net vector. *)
Theorem classified_access_failure_modes :
  forall (g : CktGraph) (k : IndexType),
    (psub k g = Abort OutOfRange <->
     ((numPsubs g <= k)%N \/
      exists i, at_ (_psubIdxArray g) k = Done i /\ (numNets g <= i)%N)) /\
    (nwell k g = Abort OutOfRange <->
     ((numNwells g <= k)%N \/
      exists i, at_ (_nwellIdxArray g) k = Done i /\ (numNets g <= i)%N)) /\
    psub k g <> Abort AssertionFailure /\
    nwell k g <> Abort AssertionFailure.
Proof.
  intros g k. unfold psub, nwell, numPsubs, numNwells, numNets.
  repeat split; try (apply through_Abort); try (apply through_no_assertion);
    apply through_Abort.
Qed.

(** X6. [addPsubIdx] and [addNwellIdx] do not check their argument: given an
    index at or beyond [numNets()] they still append it, and the access at
    the new position throws out-of-range.  Classifying the index
    [numNets()] first and allocating the net afterwards is the same as
    [allocatePsub()], respectively [allocateNwell()]. *)
Theorem classification_is_unchecked :
  forall (g : CktGraph) (i : IndexType),
    ((numNets g <= i)%N ->
     numPsubs (addPsubIdx i g) = (numPsubs g + 1)%N /\
     psub (numPsubs g) (addPsubIdx i g) = Abort OutOfRange /\
     numNwells (addNwellIdx i g) = (numNwells g + 1)%N /\
     nwell (numNwells g) (addNwellIdx i g) = Abort OutOfRange) /\
    allocateNet (addPsubIdx (numNets g) g) = allocatePsub g /\
    allocateNet (addNwellIdx (numNets g) g) = allocateNwell g.
Proof.
  intros g i. split; [intros Hi; repeat split|split].
  - unfold numPsubs, addPsubIdx, size_. simpl. rewrite length_app. simpl. lia.
  - unfold psub, addPsubIdx, numPsubs. simpl. rewrite at_snoc_last. simpl.
    now apply at_Abort.
  - unfold numNwells, addNwellIdx, size_. simpl. rewrite length_app. simpl. lia.
  - unfold nwell, addNwellIdx, numNwells. simpl. rewrite at_snoc_last. simpl.
    now apply at_Abort.
  - unfold allocatePsub, allocateNet, addPsubIdx, numNets. simpl.
    rewrite !size_snoc. reflexivity.
  - unfold allocateNwell, allocateNet, addNwellIdx, numNets. simpl.
    rewrite !size_snoc. reflexivity.
Qed.

(** X7. The nwell list behaves as the psub list does: for a valid net
    index [i], [addNwellIdx(i)] appends [i] at position [numNwells()] and
    [nwell] at that position is [net(i)]; [allocateNwell()] returns the
    index of the net it appends, a valid net index and the last entry of
    the nwell list, where [nwell] finds the new default-constructed net. *)
Theorem nwell_is_the_classified_net :
  forall (g : CktGraph),
    (forall i, (i < numNets g)%N ->
       at_ (_nwellIdxArray (addNwellIdx i g)) (numNwells g) = Done i /\
       numNwells (addNwellIdx i g) = (numNwells g + 1)%N /\
       nwell (numNwells g) (addNwellIdx i g) = net i g /\
       exists n, nwell (numNwells g) (addNwellIdx i g) = Done n) /\
    ((allocateNwell g).2 = numNets g /\
     ((allocateNwell g).2 < numNets (allocateNwell g).1)%N /\
     _netArray (allocateNwell g).1 = _netArray g ++ [Net_new] /\
     _psubIdxArray (allocateNwell g).1 = _psubIdxArray g /\
     last (_nwellIdxArray (allocateNwell g).1) = Some (allocateNwell g).2 /\
     nwell (numNwells g) (allocateNwell g).1 = Done Net_new).
Proof.
  intros g. split.
  - intros i Hi. unfold nwell, net, numNwells, addNwellIdx. simpl.
    rewrite at_snoc_last. simpl. repeat split.
    + unfold size_. rewrite length_app. simpl. lia.
    + now apply at_in_range.
  - unfold allocateNwell, allocateNet, nwell, numNwells, numNets. simpl.
    rewrite !size_snoc, at_snoc_last. simpl. rewrite at_snoc_last.
    repeat split.
    + unfold size_. rewrite length_app. simpl. lia.
    + apply last_snoc.
Qed.

(** X8. The two classification lists are independent and keep duplicates:
    classifying a net as psub changes no nwell access and conversely, the
    two calls commute, the same valid net can sit in both lists and is then
    found by [psub] and by [nwell] alike, and classifying it twice as psub
    gives two positions that both resolve to it. *)
Theorem classification_lists_independent :
  forall (g : CktGraph) (i j k : IndexType),
    (nwell k (addPsubIdx i g) = nwell k g /\
     numNwells (addPsubIdx i g) = numNwells g /\
     psub k (addNwellIdx i g) = psub k g /\
     numPsubs (addNwellIdx i g) = numPsubs g) /\
    addPsubIdx i (addNwellIdx j g) = addNwellIdx j (addPsubIdx i g) /\
    ((i < numNets g)%N ->
     psub (numPsubs g) (addNwellIdx i (addPsubIdx i g)) = net i g /\
     nwell (numNwells g) (addNwellIdx i (addPsubIdx i g)) = net i g /\
     numPsubs (addPsubIdx i (addPsubIdx i g)) = (numPsubs g + 2)%N /\
     psub (numPsubs g) (addPsubIdx i (addPsubIdx i g)) = net i g /\
     psub (numPsubs g + 1)%N (addPsubIdx i (addPsubIdx i g)) = net i g).
Proof.
  intros g i j k. split; [repeat split|split; [reflexivity|]].
  intros Hi. unfold psub, nwell, net, numPsubs, numNwells, addPsubIdx,
    addNwellIdx. simpl. repeat split.
  - now rewrite at_snoc_last.
  - now rewrite at_snoc_last.
  - unfold size_. rewrite !length_app. simpl. lia.
  - rewrite at_snoc_old, at_snoc_last; [reflexivity|].
    unfold size_. rewrite length_app. simpl. lia.
  - replace (size_ (_psubIdxArray g) + 1)%N
      with (size_ (_psubIdxArray g ++ [i]))
      by (unfold size_; rewrite length_app; simpl; lia).
    now rewrite at_snoc_last.
Qed.

End MoreGraphProperties.

(** ** Growth *)

Lemma at_prefix_Done {A : Type} (v v' : list A) (a : A) (idx : IndexType) :
  v `prefix_of` v' -> at_ v idx = Done a -> at_ v' idx = Done a.
Proof.
  intros [w ->]. rewrite !at_Done. intros E. now apply lookup_app_l_Some.
Qed.

Lemma prefix_snoc {A : Type} (v : list A) (x : A) : v `prefix_of` v ++ [x].
Proof. now exists [x]. Qed.

Section GrowthProperties.
Context {col : Collaborators}.

Lemma grown_from_refl (g : CktGraph) : grown_from g g.
Proof. repeat split; reflexivity. Qed.

Lemma grown_from_trans (g1 g2 g3 : CktGraph) :
  grown_from g1 g2 -> grown_from g2 g3 -> grown_from g1 g3.
Proof.
  intros (A1 & A2 & A3 & A4 & A5) (B1 & B2 & B3 & B4 & B5).
  repeat split; etrans; eassumption.
Qed.

Lemma appends_only_grows (m : Mutation) (g : CktGraph) :
  appends_only m -> exists g', mutate m g = Done g' /\ grown_from g g'.
Proof.
  destruct m; simpl; intros Hm; try contradiction;
    (eexists; split; [reflexivity|];
     repeat split; simpl; try reflexivity; apply prefix_snoc).
Qed.

Lemma appends_only_all_grow (ms : list Mutation) (g : CktGraph) :
  Forall appends_only ms ->
  exists g', mutate_all ms g = Done g' /\ grown_from g g'.
Proof.
  intros Hms. revert g. induction Hms as [|m ms Hm _ IH]; intros g; simpl.
  - exists g. split; [reflexivity|apply grown_from_refl].
  - destruct (appends_only_grows m g Hm) as (g1 & E1 & G1). rewrite E1. simpl.
    destruct (IH g1) as (g' & E' & G'). exists g'. split; [exact E'|].
    now apply grown_from_trans with g1.
Qed.

(** X9. A run of allocators and classifiers ([allocateNode], [allocatePin],
    [allocateNet], [allocatePsub], [allocateNwell], [addPsubIdx],
    [addNwellIdx]) never fails, never shrinks a vector, and keeps every
    index valid: whatever [node(i)], [pin(i)], [net(i)], [psub(k)] or
    [nwell(k)] returned before the run it returns after it. *)
Theorem appending_keeps_every_index :
  forall (ms : list Mutation) (g : CktGraph),
    Forall appends_only ms ->
    exists g', mutate_all ms g = Done g' /\
      ((numNodes g <= numNodes g')%N /\ (numPins g <= numPins g')%N /\
       (numNets g <= numNets g')%N /\ (numPsubs g <= numPsubs g')%N /\
       (numNwells g <= numNwells g')%N) /\
      (forall i n, node i g = Done n -> node i g' = Done n) /\
      (forall i p, pin i g = Done p -> pin i g' = Done p) /\
      (forall i n, net i g = Done n -> net i g' = Done n) /\
      (forall k n, psub k g = Done n -> psub k g' = Done n) /\
      (forall k n, nwell k g = Done n -> nwell k g' = Done n).
Proof.
  intros ms g Hms.
  destruct (appends_only_all_grow ms g Hms) as (g' & E & G1 & G2 & G3 & G4 & G5).
  exists g'. split; [exact E|].
  unfold numNodes, numPins, numNets, numPsubs, numNwells, size_,
    node, pin, net, psub, nwell.
  split.
  { apply prefix_length in G1, G2, G3, G4, G5. repeat split; lia. }
  repeat split; intros i n; try (now apply at_prefix_Done).
  - destruct (at_ (_psubIdxArray g) i) as [j|f] eqn:Ej; simpl; [|discriminate].
    rewrite (at_prefix_Done _ _ _ _ G4 Ej). simpl. now apply at_prefix_Done.
  - destruct (at_ (_nwellIdxArray g) i) as [j|f] eqn:Ej; simpl; [|discriminate].
    rewrite (at_prefix_Done _ _ _ _ G5 Ej). simpl. now apply at_prefix_Done.
Qed.

Lemma calls_to_cons (e e0 : Entity) (es : list Entity) :
  calls_to e (e0 :: es)
  = if decide (e0 = e) then S (calls_to e es) else calls_to e es.
Proof.
  unfold calls_to. rewrite filter_cons. now destruct (decide (e0 = e)).
Qed.

Lemma allocate_all_fst_cons (e : Entity) (es : list Entity) (g : CktGraph) :
  (allocate_all (e :: es) g).1 = (allocate_all es (allocate e g).1).1.
Proof.
  simpl. destruct (allocate e g) as [g1 idx]. simpl.
  now destruct (allocate_all es g1).
Qed.

(** X10. The graph a run of [allocateNode], [allocatePin] and
    [allocateNet] calls leaves depends only on how many calls went to each
    allocator: each vector has gained that many default-constructed
    entities at its end and nothing else has changed, so two runs that
    differ only in the order of the calls leave the same graph. *)
Theorem allocation_order_is_irrelevant :
  forall (es : list Entity) (g : CktGraph),
    (allocate_all es g).1
    = with_netArray (_netArray g ++ replicate (calls_to ANet es) Net_new)
        (with_pinArray (_pinArray g ++ replicate (calls_to APin es) Pin_new)
           (with_nodeArray
              (_nodeArray g ++ replicate (calls_to ANode es) CktNode_new) g)) /\
    (forall es', es ≡ₚ es' -> (allocate_all es' g).1 = (allocate_all es g).1).
Proof.
  assert (Hfinal : forall es g,
    (allocate_all es g).1
    = with_netArray (_netArray g ++ replicate (calls_to ANet es) Net_new)
        (with_pinArray (_pinArray g ++ replicate (calls_to APin es) Pin_new)
           (with_nodeArray
              (_nodeArray g ++ replicate (calls_to ANode es) CktNode_new) g))).
  { induction es as [|e es IH]; intros g.
    - destruct g. unfold with_netArray, with_pinArray, with_nodeArray. simpl.
      now rewrite !app_nil_r.
    - rewrite allocate_all_fst_cons, IH, !calls_to_cons.
      destruct e, g; unfold with_netArray, with_pinArray, with_nodeArray;
        simpl; rewrite <- ?app_assoc; reflexivity. }
  intros es g. split; [apply Hfinal|].
  intros es' Hperm. rewrite !Hfinal. unfold calls_to. now rewrite Hperm.
Qed.

End GrowthProperties.

(** ** Resizing, again *)

Section ResizeProperties.
Context {col : Collaborators}.

Lemma resizeNodeArray_Done (n : IndexType) (g : CktGraph) :
  (n <= numNodes g)%N ->
  resizeNodeArray n g
  = Done (with_nodeArray (take (N.to_nat n) (_nodeArray g)) g).
Proof.
  intros Hle. unfold resizeNodeArray, AssertMsg, numNodes in *.
  rewrite (proj2 (N.leb_le _ _) Hle). simpl.
  now rewrite (proj1 (resize_within n CktNode_new (_nodeArray g) Hle)).
Qed.

Lemma resizePinArray_Done (n : IndexType) (g : CktGraph) :
  (n <= numPins g)%N ->
  resizePinArray n g = Done (with_pinArray (take (N.to_nat n) (_pinArray g)) g).
Proof.
  intros Hle. unfold resizePinArray, AssertMsg, numPins in *.
  rewrite (proj2 (N.leb_le _ _) Hle). simpl.
  now rewrite (proj1 (resize_within n Pin_new (_pinArray g) Hle)).
Qed.

Lemma resizeNetArray_Done (n : IndexType) (g : CktGraph) :
  (n <= numNets g)%N ->
  resizeNetArray n g = Done (with_netArray (take (N.to_nat n) (_netArray g)) g).
Proof.
  intros Hle. unfold resizeNetArray, AssertMsg, numNets in *.
  rewrite (proj2 (N.leb_le _ _) Hle). simpl.
  now rewrite (proj1 (resize_within n Net_new (_netArray g) Hle)).
Qed.

Lemma resizeNodeArray_Abort (n : IndexType) (g : CktGraph) :
  (numNodes g < n)%N -> resizeNodeArray n g = Abort AssertionFailure.
Proof.
  intros Hgt. unfold resizeNodeArray, AssertMsg, numNodes in *.
  now rewrite (proj2 (N.leb_gt _ _) Hgt).
Qed.

Lemma resizePinArray_Abort (n : IndexType) (g : CktGraph) :
  (numPins g < n)%N -> resizePinArray n g = Abort AssertionFailure.
Proof.
  intros Hgt. unfold resizePinArray, AssertMsg, numPins in *.
  now rewrite (proj2 (N.leb_gt _ _) Hgt).
Qed.

Lemma resizeNetArray_Abort (n : IndexType) (g : CktGraph) :
  (numNets g < n)%N -> resizeNetArray n g = Abort AssertionFailure.
Proof.
  intros Hgt. unfold resizeNetArray, AssertMsg, numNets in *.
  now rewrite (proj2 (N.leb_gt _ _) Hgt).
Qed.

Lemma size_take {A : Type} (n : IndexType) (v : list A) :
  (n <= size_ v)%N -> size_ (take (N.to_nat n) v) = n.
Proof. unfold size_. rewrite length_take. lia. Qed.

Lemma take_take_le {A : Type} (m n : IndexType) (v : list A) :
  (m <= n)%N -> take (N.to_nat m) (take (N.to_nat n) v) = take (N.to_nat m) v.
Proof. intros Hle. rewrite take_take. f_equal. lia. Qed.

(** X11. Resizes compose downwards and only downwards: shrinking a vector
    to [n] and then to [m <= n] is shrinking it to [m] at once; after a
    real shrink the vector cannot be resized back to its former size, the
    second call fails on the assertion; and the next allocation after a
    shrink to [n] returns index [n], so the indices of the dropped entities
    are handed out again. *)
Theorem resize_composes_downwards :
  forall (g : CktGraph) (m n : IndexType),
    (((m <= n)%N -> (n <= numNodes g)%N ->
      (g1 ← resizeNodeArray n g; resizeNodeArray m g1) = resizeNodeArray m g) /\
     ((n < numNodes g)%N ->
      (g1 ← resizeNodeArray n g; resizeNodeArray (numNodes g) g1)
      = Abort AssertionFailure) /\
     ((n <= numNodes g)%N ->
      (g1 ← resizeNodeArray n g; mret (allocateNode g1).2) = Done n)) /\
    (((m <= n)%N -> (n <= numPins g)%N ->
      (g1 ← resizePinArray n g; resizePinArray m g1) = resizePinArray m g) /\
     ((n < numPins g)%N ->
      (g1 ← resizePinArray n g; resizePinArray (numPins g) g1)
      = Abort AssertionFailure) /\
     ((n <= numPins g)%N ->
      (g1 ← resizePinArray n g; mret (allocatePin g1).2) = Done n)) /\
    (((m <= n)%N -> (n <= numNets g)%N ->
      (g1 ← resizeNetArray n g; resizeNetArray m g1) = resizeNetArray m g) /\
     ((n < numNets g)%N ->
      (g1 ← resizeNetArray n g; resizeNetArray (numNets g) g1)
      = Abort AssertionFailure) /\
     ((n <= numNets g)%N ->
      (g1 ← resizeNetArray n g; mret (allocateNet g1).2) = Done n)).
Proof.
  intros g m n. repeat split.
  - intros Hmn Hn. rewrite (resizeNodeArray_Done n g Hn). simpl.
    rewrite !resizeNodeArray_Done; unfold numNodes in *; simpl;
      rewrite ?size_take; try lia.
    unfold with_nodeArray. simpl. now rewrite take_take_le.
  - intros Hn. rewrite (resizeNodeArray_Done n g) by lia. simpl.
    apply resizeNodeArray_Abort. unfold numNodes in *. simpl.
    rewrite size_take; lia.
  - intros Hn. rewrite (resizeNodeArray_Done n g Hn). simpl.
    unfold Outcome_ret. f_equal. rewrite size_snoc. now apply size_take.
  - intros Hmn Hn. rewrite (resizePinArray_Done n g Hn). simpl.
    rewrite !resizePinArray_Done; unfold numPins in *; simpl;
      rewrite ?size_take; try lia.
    unfold with_pinArray. simpl. now rewrite take_take_le.
  - intros Hn. rewrite (resizePinArray_Done n g) by lia. simpl.
    apply resizePinArray_Abort. unfold numPins in *. simpl.
    rewrite size_take; lia.
  - intros Hn. rewrite (resizePinArray_Done n g Hn). simpl.
    unfold Outcome_ret. f_equal. rewrite size_snoc. now apply size_take.
  - intros Hmn Hn. rewrite (resizeNetArray_Done n g Hn). simpl.
    rewrite !resizeNetArray_Done; unfold numNets in *; simpl;
      rewrite ?size_take; try lia.
    unfold with_netArray. simpl. now rewrite take_take_le.
  - intros Hn. rewrite (resizeNetArray_Done n g) by lia. simpl.
    apply resizeNetArray_Abort. unfold numNets in *. simpl.
    rewrite size_take; lia.
  - intros Hn. rewrite (resizeNetArray_Done n g Hn). simpl.
    unfold Outcome_ret. f_equal. rewrite size_snoc. now apply size_take.
Qed.

Lemma at_take {A : Type} (n i : IndexType) (v : list A) :
  at_ (take (N.to_nat n) v) i
  = if (i <? n)%N then at_ v i else Abort OutOfRange.
Proof.
  unfold at_. destruct (N.ltb_spec i n) as [Hlt|Hge].
  - rewrite lookup_take_lt by lia. reflexivity.
  - rewrite lookup_take_ge by lia. reflexivity.
Qed.

(** X12. [resizeNetArray] leaves both classification lists as they are:
    after a shrink to [n], a psub or nwell entry below [n] still resolves
    to its net, unchanged, while [psub]/[nwell] at a position whose entry is
    [n] or more throws out-of-range, the position itself staying in the
    list. *)
Theorem resizeNetArray_leaves_classification :
  forall (g g' : CktGraph) (n : IndexType),
    resizeNetArray n g = Done g' ->
    _psubIdxArray g' = _psubIdxArray g /\
    _nwellIdxArray g' = _nwellIdxArray g /\
    (forall k i, at_ (_psubIdxArray g) k = Done i ->
       ((i < n)%N -> psub k g' = net i g) /\
       ((n <= i)%N -> psub k g' = Abort OutOfRange)) /\
    (forall k i, at_ (_nwellIdxArray g) k = Done i ->
       ((i < n)%N -> nwell k g' = net i g) /\
       ((n <= i)%N -> nwell k g' = Abort OutOfRange)).
Proof.
  intros g g' n E.
  assert (Hn : (n <= numNets g)%N).
  { destruct (N.le_gt_cases n (numNets g)) as [H|H]; [exact H|].
    rewrite (resizeNetArray_Abort n g H) in E. discriminate. }
  rewrite (resizeNetArray_Done n g Hn) in E. inversion E; subst g'. clear E.
  unfold psub, nwell, net. simpl.
  split; [reflexivity|]. split; [reflexivity|].
  split; intros k i Hk; rewrite Hk; simpl; rewrite at_take;
    (split; intros Hi;
     [ now rewrite (proj2 (N.ltb_lt _ _))
     | now rewrite (proj2 (N.ltb_ge _ _)) ]).
Qed.

End ResizeProperties.

(** ** What calls keep *)


Section CallProperties.
Context {col : Collaborators}.

Lemma mutate_classification (m : Mutation) (g g' : CktGraph) :
  mutate m g = Done g' ->
  _psubIdxArray g `prefix_of` _psubIdxArray g' /\
  _nwellIdxArray g `prefix_of` _nwellIdxArray g'.
Proof.
  destruct m; simpl;
    first [ intros E; apply resize_backup in E; subst g'; split; reflexivity
          | intros E; inversion E; subst g'; simpl; split;
            first [ reflexivity | apply prefix_snoc ] ].
Qed.

(** X13. No mutation removes or rewrites a classification entry: after any
    run of mutations that completes, the psub list and the nwell list each
    start with the list as it was before, so [numPsubs()] and [numNwells()]
    never decrease and position [k] keeps naming the same net index.  Only
    [restore()] can take entries away. *)
Theorem mutations_only_append_classification :
  forall (ms : list Mutation) (g g' : CktGraph),
    mutate_all ms g = Done g' ->
    (_psubIdxArray g `prefix_of` _psubIdxArray g' /\
     _nwellIdxArray g `prefix_of` _nwellIdxArray g') /\
    ((numPsubs g <= numPsubs g')%N /\ (numNwells g <= numNwells g')%N) /\
    (forall k i, at_ (_psubIdxArray g) k = Done i ->
                 at_ (_psubIdxArray g') k = Done i) /\
    (forall k i, at_ (_nwellIdxArray g) k = Done i ->
                 at_ (_nwellIdxArray g') k = Done i).
Proof.
  intros ms g g' E.
  assert (Hpre : _psubIdxArray g `prefix_of` _psubIdxArray g' /\
                 _nwellIdxArray g `prefix_of` _nwellIdxArray g').
  { revert g E. induction ms as [|m ms IH]; intros g; simpl.
    - intros E. inversion E. split; reflexivity.
    - destruct (mutate m g) as [g1|f] eqn:Em; simpl; [|discriminate].
      intros E. destruct (mutate_classification m g g1 Em) as [P1 N1].
      destruct (IH g1 E) as [P2 N2]. split; etrans; eassumption. }
  destruct Hpre as [HP HN]. split; [now split|]. split.
  - unfold numPsubs, numNwells, size_.
    apply prefix_length in HP as LP. apply prefix_length in HN as LN.
    split; lia.
  - split; intros k i; now apply at_prefix_Done.
Qed.

Lemma restore_inv (g g' : CktGraph) :
  restore g = Done g' ->
  g' = restore_swaps g /\
  xLo (Layout_boundary (bk_layout (_backup g))) = LOC_TYPE_MAX.
Proof.
  unfold restore. cbn [restore_swaps _layout].
  destruct (xLo (Layout_boundary (bk_layout (_backup g))) =? LOC_TYPE_MAX)
    eqn:Ex; simpl; [|discriminate].
  intros E. inversion E. split; [reflexivity|]. now apply Z.eqb_eq.
Qed.







End CallProperties.

(** ** The checkpoint, again *)

Section CheckpointProperties.
Context {col : Collaborators}.

Lemma restore_swaps_twice (g : CktGraph) : restore_swaps (restore_swaps g) = g.
Proof. destruct g as [[] ]. reflexivity. Qed.

Lemma backup_twice (g : CktGraph) : backup (backup g) = backup g.
Proof. now destruct g. Qed.

(** X15. No mutation writes the checkpoint slot: after any run of
    mutations that completes, the slot is what it was, so a [restore()]
    fails on its assertion after the run exactly if it would have failed
    before it, and otherwise brings back the same nine members. *)
Theorem mutations_leave_checkpoint :
  forall (ms : list Mutation) (g g' : CktGraph),
    mutate_all ms g = Done g' ->
    _backup g' = _backup g /\
    (restore g' = Abort AssertionFailure <-> restore g = Abort AssertionFailure) /\
    (forall r, restore g = Done r ->
       exists r', restore g' = Done r' /\
         _nodeArray r' = _nodeArray r /\ _pinArray r' = _pinArray r /\
         _netArray r' = _netArray r /\ _psubIdxArray r' = _psubIdxArray r /\
         _nwellIdxArray r' = _nwellIdxArray r /\ _layout r' = _layout r /\
         _isImplemented r' = _isImplemented r /\
         _flipVertFlag r' = _flipVertFlag r /\ _gdsData r' = _gdsData r).
Proof.
  intros ms g g' E. apply mutate_all_backup in E. split; [exact E|].
  destruct (Z.eq_dec (xLo (Layout_boundary (bk_layout (_backup g))))
              LOC_TYPE_MAX) as [Hx|Hx].
  - rewrite (restore_Done g Hx), (restore_Done g') by now rewrite E.
    split; [split; discriminate|].
    intros r Hr. inversion Hr; subst r. eexists. split; [reflexivity|].
    simpl. rewrite E. repeat split.
  - rewrite (restore_Abort g Hx), (restore_Abort g') by now rewrite E.
    split; [split; reflexivity|]. discriminate.
Qed.

(** X16. [restore()] is an exchange, not a copy: when it completes, the slot
    holds the nine members the graph had before the call, and a second
    [restore()] brings the graph back exactly as it was, provided the
    layout it then swaps in, the one that was live at first, passes the
    assertion; if that layout has another boundary the second [restore()]
    stops on the assertion and the exchange cannot be undone. *)
Theorem restore_twice_gives_back :
  forall (g g1 : CktGraph),
    restore g = Done g1 ->
    (bk_nodeArray (_backup g1) = _nodeArray g /\
     bk_pinArray (_backup g1) = _pinArray g /\
     bk_netArray (_backup g1) = _netArray g /\
     bk_psubIdxArray (_backup g1) = _psubIdxArray g /\
     bk_nwellIdxArray (_backup g1) = _nwellIdxArray g /\
     bk_layout (_backup g1) = _layout g /\
     bk_isImplemented (_backup g1) = _isImplemented g /\
     bk_flipVertFlag (_backup g1) = _flipVertFlag g /\
     bk_gdsData (_backup g1) = _gdsData g) /\
    (xLo (Layout_boundary (_layout g)) = LOC_TYPE_MAX -> restore g1 = Done g) /\
    (xLo (Layout_boundary (_layout g)) <> LOC_TYPE_MAX ->
     restore g1 = Abort AssertionFailure).
Proof.
  intros g g1 E. apply restore_inv in E as [-> _].
  split; [repeat split|]. split; intros Hx.
  - rewrite restore_Done by exact Hx. now rewrite restore_swaps_twice.
  - now apply restore_Abort.
Qed.

(** X17. The slot is overwritten, not stacked: [backup(); restore();
    backup(); restore();] behaves as a single [backup(); restore();] on
    every graph, completing with the same state or stopping on the same
    assertion, and a [backup()] right after a [backup()] changes nothing. *)
Theorem backup_restore_pairs_collapse :
  forall (g : CktGraph),
    call_all [CallBackup; CallRestore; CallBackup; CallRestore] g
    = call_all [CallBackup; CallRestore] g /\
    call_all [CallBackup; CallBackup] g = call_all [CallBackup] g.
Proof.
  intros g. simpl. rewrite backup_twice. split; [|reflexivity].
  destruct (Z.eq_dec (xLo (Layout_boundary (_layout g))) LOC_TYPE_MAX)
    as [Hx|Hx].
  - rewrite (restore_Done (backup g)) by exact Hx.
    rewrite restore_swaps_backup. simpl. rewrite backup_twice.
    rewrite (restore_Done (backup g)) by exact Hx.
    now rewrite restore_swaps_backup.
  - now rewrite (restore_Abort (backup g)) by exact Hx.
Qed.

(** X18. A rollback hands the same indices out again: after [backup()], any
    mutations and a [restore()] that completes, the sizes are those at
    [backup()], so the next [allocateNode], [allocatePin], [allocateNet] or
    [allocatePsub] returns the size its vector had at [backup()], an index
    that a call between [backup()] and [restore()] may have returned
    already. *)
Theorem restore_reuses_indices :
  forall (g : CktGraph) (ms : list Mutation) (g2 g3 : CktGraph),
    mutate_all ms (backup g) = Done g2 ->
    restore g2 = Done g3 ->
    (numNodes g3 = numNodes g /\ numPins g3 = numPins g /\
     numNets g3 = numNets g /\ numPsubs g3 = numPsubs g /\
     numNwells g3 = numNwells g) /\
    (allocateNode g3).2 = numNodes g /\
    (allocatePin g3).2 = numPins g /\
    (allocateNet g3).2 = numNets g /\
    (allocatePsub g3).2 = numNets g /\
    (allocateNwell g3).2 = numNets g.
Proof.
  intros g ms g2 g3 Hms Hr. apply mutate_all_backup in Hms.
  apply restore_inv in Hr as [-> _].
  unfold numNodes, numPins, numNets, numPsubs, numNwells, allocatePsub,
    allocateNwell, allocateNode, allocatePin, allocateNet.
  simpl. rewrite Hms. simpl. rewrite !size_snoc. repeat split.
Qed.

(** ** Flipping, again *)

(** X19. [flipVert] touches the flip flag and the nets and nothing else.
    After one call per axis of a list, the flag is the original one when
    the number of calls is even and its negation when it is odd, every
    net has been flipped about each axis in call order, and the number of
    nets is unchanged; on a graph without nets only the flag moves. *)
Theorem flipVert_all_parity :
  forall (axes : list LocType) (g : CktGraph),
    flipVert_all axes g
    = with_netArray (Net_flipVert_all axes <$> _netArray g)
        (with_flipVertFlag
           (xorb (_flipVertFlag g) (Nat.odd (length axes))) g) /\
    flipVertFlag (flipVert_all axes g)
    = xorb (flipVertFlag g) (Nat.odd (length axes)) /\
    numNets (flipVert_all axes g) = numNets g /\
    (_netArray g = [] ->
     flipVert_all axes g
     = with_flipVertFlag (xorb (_flipVertFlag g) (Nat.odd (length axes))) g).
Proof.
  assert (Hall : forall axes g,
    flipVert_all axes g
    = with_netArray (Net_flipVert_all axes <$> _netArray g)
        (with_flipVertFlag
           (xorb (_flipVertFlag g) (Nat.odd (length axes))) g)).
  { induction axes as [|a axes IH]; intros g.
    - simpl. rewrite xorb_false_r.
      rewrite (list_fmap_ext _ id (_netArray g)) by reflexivity.
      rewrite list_fmap_id. now destruct g.
    - cbn [flipVert_all]. rewrite IH. unfold flipVert.
      cbn [_netArray _flipVertFlag with_netArray with_flipVertFlag length].
      rewrite <- list_fmap_compose, Nat.odd_succ, <- Nat.negb_odd.
      unfold with_netArray, with_flipVertFlag. simpl.
      destruct (_flipVertFlag g), (Nat.odd (length axes)); reflexivity. }
  intros axes g. rewrite Hall. repeat split.
  - unfold numNets, size_. simpl. now rewrite length_fmap.
  - intros Hnil. rewrite Hnil. simpl. unfold with_netArray, with_flipVertFlag.
    simpl. now rewrite Hnil.
Qed.

(** ** Names *)

(** X20. [setName] writes the name and the reference name, [setRefName]
    the reference name only.  So the order of the two calls matters: a
    [setName] after a [setRefName] wipes the reference name out, while a
    [setRefName] after a [setName] leaves a graph whose two names differ
    as soon as the arguments do. *)
Theorem setName_overwrites_refName :
  forall (g : CktGraph) (n r : string),
    (name (setName n g) = n /\ refName (setName n g) = n) /\
    (name (setRefName r g) = name g /\ refName (setRefName r g) = r) /\
    setName n (setRefName r g) = setName n g /\
    (name (setRefName r (setName n g)) = n /\
     refName (setRefName r (setName n g)) = r) /\
    (r <> n -> setRefName r (setName n g) <> setName n (setRefName r g)).
Proof.
  intros g n r. repeat split.
  intros Hne E. apply (f_equal refName) in E. simpl in E. congruence.
Qed.

End CheckpointProperties.

(** ** Concrete runs of the further properties *)

Example netAssignment_log_sample :
  netAssignment "vdd"
    (floorplan_call_all
       [CallSetNetAssignment "vdd" 0; CallSetNetAssignment "gnd" 1;
        CallClearNetAssignment; CallSetNetAssignment "vdd" 1;
        CallSetBoundary 0 0 10 10; CallClearBoundary]
       (_fpData sample_empty)) = 1.
Proof. reflexivity. Qed.

Lemma floorplan_setters_compose_witness :
  setNetAssignment "vdd" 1 (setNetAssignment "gnd" 0 (_fpData sample_empty))
  = setNetAssignment "gnd" 0 (setNetAssignment "vdd" 1 (_fpData sample_empty)).
Proof.
  refine (proj1 (proj2 (floorplan_setters_compose (_fpData sample_empty)
                          "vdd" "gnd" 1 0 0 0 0 0 0 0 0 0)) _).
  intros E. discriminate E.
Defined.

Lemma classification_is_unchecked_witness :
  psub (numPsubs sample_one_net) (addPsubIdx 5%N sample_one_net)
  = Abort OutOfRange.
Proof.
  refine (proj1 (proj2 (proj1 (classification_is_unchecked (col := SpecModel)
                                 sample_one_net 5%N) _))).
  intros E. discriminate E.
Defined.

Lemma nwell_is_the_classified_net_witness :
  nwell (numNwells sample_one_net) (addNwellIdx 0%N sample_one_net)
  = net 0%N sample_one_net.
Proof.
  refine (proj1 (proj2 (proj2 (proj1 (nwell_is_the_classified_net
                                        (col := SpecModel) sample_one_net)
                                 0%N _)))).
  reflexivity.
Defined.

Lemma classification_lists_independent_witness :
  psub (numPsubs sample_one_net)
    (addNwellIdx 0%N (addPsubIdx 0%N sample_one_net))
  = net 0%N sample_one_net.
Proof.
  refine (proj1 (proj2 (proj2 (classification_lists_independent
                                 (col := SpecModel) sample_one_net
                                 0%N 0%N 0%N)) _)).
  reflexivity.
Defined.

Lemma appending_keeps_every_index_witness :
  exists g',
    mutate_all [CallAllocateNode; CallAllocatePsub; CallAddNwellIdx 0%N]
      sample_one_net = Done g' /\
    net 0%N g' = net 0%N sample_one_net.
Proof.
  destruct (appending_keeps_every_index (col := SpecModel)
              [CallAllocateNode; CallAllocatePsub; CallAddNwellIdx 0%N]
              sample_one_net)
    as (g' & E & _ & _ & _ & Hnet & _).
  - repeat constructor.
  - exists g'. split; [exact E|]. now apply Hnet.
Defined.

Lemma resize_composes_downwards_witness :
  (g1 ← resizeNodeArray 1%N sample_two_nodes; resizeNodeArray 0%N g1)
  = resizeNodeArray 0%N sample_two_nodes.
Proof.
  refine (proj1 (proj1 (resize_composes_downwards (col := SpecModel)
                          sample_two_nodes 0%N 1%N)) _ _).
  - intros E. discriminate E.
  - intros E. discriminate E.
Defined.

Lemma resizeNetArray_leaves_classification_witness :
  psub 0%N (with_netArray (take 1 (_netArray sample_classified))
              sample_classified)
  = net 0%N sample_classified /\
  nwell 0%N (with_netArray (take 1 (_netArray sample_classified))
               sample_classified)
  = Abort OutOfRange.
Proof.
  destruct (resizeNetArray_leaves_classification (col := SpecModel)
              sample_classified
              (with_netArray (take 1 (_netArray sample_classified))
                 sample_classified) 1%N eq_refl)
    as (_ & _ & Hp & Hn).
  split.
  - apply (proj1 (Hp 0%N 0%N eq_refl)). reflexivity.
  - apply (proj2 (Hn 0%N 1%N eq_refl)). intros E. discriminate E.
Defined.

Lemma mutations_only_append_classification_witness :
  (numPsubs sample_classified
   <= numPsubs (flipVert 0%Z (allocatePsub sample_classified).1))%N.
Proof.
  exact (proj1 (proj1 (proj2
    (mutations_only_append_classification (col := SpecModel)
       [CallAllocatePsub; CallFlipVert 0] sample_classified
       (flipVert 0 (allocatePsub sample_classified).1) eq_refl)))).
Defined.


Lemma mutations_leave_checkpoint_witness :
  _backup sample_grown = _backup (backup sample_two_nodes).
Proof.
  exact (proj1 (mutations_leave_checkpoint (col := SpecModel)
                  [CallAllocateNode] (backup sample_two_nodes) sample_grown
                  eq_refl)).
Defined.

Lemma restore_twice_gives_back_witness :
  restore (restore_swaps sample_grown) = Done sample_grown.
Proof.
  refine (proj1 (proj2 (restore_twice_gives_back (col := SpecModel)
                          sample_grown (restore_swaps sample_grown) eq_refl))
            _).
  reflexivity.
Defined.

Lemma restore_reuses_indices_witness :
  (allocateNode sample_grown).2 = 3%N /\
  (allocateNode (restore_swaps sample_grown)).2 = numNodes sample_two_nodes.
Proof.
  split; [reflexivity|].
  exact (proj1 (proj2 (restore_reuses_indices (col := SpecModel)
                         sample_two_nodes [CallAllocateNode] sample_grown
                         (restore_swaps sample_grown) eq_refl eq_refl))).
Defined.

Lemma flipVert_all_parity_witness :
  flipVert_all [0; 5; 7] sample_empty
  = with_flipVertFlag
      (xorb (_flipVertFlag sample_empty) (Nat.odd (length [0; 5; 7])))
      sample_empty.
Proof.
  refine (proj2 (proj2 (proj2 (flipVert_all_parity (col := SpecModel)
                                 [0; 5; 7] sample_empty))) _).
  reflexivity.
Defined.

Lemma setName_overwrites_refName_witness :
  setRefName "cell"%string (setName "top"%string sample_empty)
  <> setName "top"%string (setRefName "cell"%string sample_empty).
Proof.
  refine (proj2 (proj2 (proj2 (proj2 (setName_overwrites_refName
                                        (col := SpecModel) sample_empty
                                        "top"%string "cell"%string)))) _).
  intros E. discriminate E.
Defined.
